(** * RepRap2025: the self-extending agent of [index.ts]

    A shallow embedding of the [AIAgent] class (tool registry, dynamic
    executor, completion orchestrator, self-rewrite, restart and the
    conversation driver) together with the platform functions it calls
    ([JSON.stringify], [JSON.parse], [String.prototype.replace],
    [String.prototype.trim]), and the properties of the specification
    stated over it.

    Conventions.
    - A JavaScript string is represented by the bytes of its UTF-8
      encoding (a Rocq [string]); a file holds exactly those bytes.  Every
      character the agent inspects ([$], quotes, backslash, backticks, ASCII
      control characters and spaces) is one byte in that encoding.
    - Values of type [any] that the agent reads back from JSON are kept as
      [json] trees and decoded into the TypeScript interfaces ([Message],
      [Tool], the decision object) where the code uses them at those types;
      a value outside the interfaces yields the outcome [IllTyped]: the
      dynamic behaviour of the code on it is not described here.
    - The completion provider and the JavaScript engine that compiles and
      runs tool implementations are parameters of the development. *)

From Stdlib Require Import Ascii String NArith ZArith List Bool Lia.
From stdpp Require Import base option list strings gmap.
Import ListNotations.
Local Open Scope list_scope.
#[local] Set Warnings "-register-all".

(** ** Text: lists of bytes *)

Module Text.

Definition chars (s : string) : list ascii := list_ascii_of_string s.
Definition str (l : list ascii) : string := string_of_list_ascii l.

Definition code (c : ascii) : N := N_of_ascii c.
Definition byte (n : N) : ascii := ascii_of_N n.

Definition dquote : ascii := "034"%char.
Definition backslash : ascii := "092"%char.
Definition newline : ascii := "010"%char.
Definition space : ascii := " "%char.
Definition dollar : ascii := "$"%char.
Definition backtick : ascii := "`"%char.

Definition same (c d : ascii) : bool := Ascii.eqb c d.

(** [starts p s] is the rest of [s] after the prefix [p], if [s] starts with [p]. *)
Fixpoint starts (p s : list ascii) : option (list ascii) :=
  match p with
  | [] => Some s
  | c :: p' =>
      match s with
      | [] => None
      | d :: s' => if same c d then starts p' s' else None
      end
  end.

(** First occurrence of [p] in [s]: the text before it and the text after it. *)
Fixpoint find (p s : list ascii) : option (list ascii * list ascii) :=
  match starts p s with
  | Some rest => Some ([], rest)
  | None =>
      match s with
      | [] => None
      | c :: s' =>
          match find p s' with
          | Some (before, rest) => Some (c :: before, rest)
          | None => None
          end
      end
  end.

Fixpoint join (sep : list ascii) (parts : list (list ascii)) : list ascii :=
  match parts with
  | [] => []
  | [p] => p
  | p :: ps => p ++ sep ++ join sep ps
  end.

Definition spaces (n : nat) : list ascii := repeat space n.

(** Decimal digits of a natural number, as in a template literal [`${i}`]. *)
Fixpoint decimal_fuel (fuel : nat) (n : N) (acc : list ascii) : list ascii :=
  match fuel with
  | O => acc
  | S fuel' =>
      let acc' := byte (48 + n mod 10) :: acc in
      if (n <? 10)%N then acc' else decimal_fuel fuel' (n / 10) acc'
  end.

Definition decimal (n : nat) : list ascii :=
  decimal_fuel (S n) (N.of_nat n) [].

(** UTF-8 encoding of a code point (generalised to lone surrogates). *)
Definition utf8 (cp : N) : list ascii :=
  if (cp <? 128)%N then [byte cp]
  else if (cp <? 2048)%N then
    [byte (192 + cp / 64); byte (128 + cp mod 64)]
  else if (cp <? 65536)%N then
    [byte (224 + cp / 4096); byte (128 + (cp / 64) mod 64); byte (128 + cp mod 64)]
  else
    [byte (240 + cp / 262144); byte (128 + (cp / 4096) mod 64);
     byte (128 + (cp / 64) mod 64); byte (128 + cp mod 64)].

(** The WhiteSpace and LineTerminator code points removed by [trim]. *)
Definition js_whitespace : list N :=
  [9; 10; 11; 12; 13; 32; 160; 5760; 8192; 8193; 8194; 8195; 8196; 8197;
   8198; 8199; 8200; 8201; 8202; 8232; 8233; 8239; 8287; 12288; 65279]%N.

Fixpoint starts_any (ps : list (list ascii)) (s : list ascii) : option (list ascii) :=
  match ps with
  | [] => None
  | p :: ps' =>
      match starts p s with
      | Some rest => Some rest
      | None => starts_any ps' s
      end
  end.

Fixpoint drop_leading (fuel : nat) (ps : list (list ascii)) (s : list ascii) : list ascii :=
  match fuel with
  | O => s
  | S fuel' =>
      match starts_any ps s with
      | Some rest => drop_leading fuel' ps rest
      | None => s
      end
  end.

Definition trimStart (s : list ascii) : list ascii :=
  drop_leading (length s) (map utf8 js_whitespace) s.

Definition trimEnd (s : list ascii) : list ascii :=
  rev (drop_leading (length s) (map (fun cp => rev (utf8 cp)) js_whitespace) (rev s)).

(** [String.prototype.trim] *)
Definition trim (s : list ascii) : list ascii := trimEnd (trimStart s).

End Text.

Import Text.

(** ** JSON values *)

Inductive json : Type :=
  | JNull
  | JBool (b : bool)
  | JNum (literal : string)
  | JStr (s : string)
  | JArr (items : list json)
  | JObj (members : list (string * json)).

(** A number is kept as the literal that denotes it: the agent never
    computes with numbers, it only passes them to tools. *)

(** *** Property order of a JavaScript object *)

Module JsObject.

Definition is_digit (c : ascii) : bool :=
  ((48 <=? code c) && (code c <=? 57))%N.

Fixpoint digits_value (l : list ascii) (acc : N) : N :=
  match l with
  | [] => acc
  | c :: l' => digits_value l' (10 * acc + (code c - 48))%N
  end.

(** Canonical array indices (0 .. 2^32 - 2) are enumerated first, in
    ascending order; the other keys follow in insertion order. *)
Definition array_index (k : string) : option N :=
  match chars k with
  | [] => None
  | c :: rest =>
      if forallb is_digit (c :: rest)
         && (negb (same c "0"%char) || match rest with [] => true | _ => false end)
         && (length rest <? 10)%nat
      then
        let n := digits_value (c :: rest) 0 in
        if (n <? 4294967295)%N then Some n else None
      else None
  end.

Section Members.
Context {V : Type}.

Fixpoint has (k : string) (o : list (string * V)) : bool :=
  match o with
  | [] => false
  | (k', _) :: o' => if String.eqb k k' then true else has k o'
  end.

Fixpoint get (k : string) (o : list (string * V)) : option V :=
  match o with
  | [] => None
  | (k', v) :: o' => if String.eqb k k' then Some v else get k o'
  end.

Fixpoint replace (k : string) (v : V) (o : list (string * V)) : list (string * V) :=
  match o with
  | [] => []
  | (k', v') :: o' =>
      if String.eqb k k' then (k', v) :: o' else (k', v') :: replace k v o'
  end.

Fixpoint insert_index (n : N) (k : string) (v : V) (o : list (string * V))
  : list (string * V) :=
  match o with
  | [] => [(k, v)]
  | (k', v') :: o' =>
      match array_index k' with
      | Some n' =>
          if (n' <? n)%N then (k', v') :: insert_index n k v o'
          else (k, v) :: (k', v') :: o'
      | None => (k, v) :: (k', v') :: o'
      end
  end.

(** CreateDataProperty: define the own property [k] of [o]. *)
Definition define (k : string) (v : V) (o : list (string * V)) : list (string * V) :=
  if has k o then replace k v o
  else match array_index k with
       | Some n => insert_index n k v o
       | None => o ++ [(k, v)]
       end.

(** The assignment [o[k] = v] on an object literal, for an object [v]:
    the key [__proto__] sets the prototype and defines no own property. *)
Definition assign (k : string) (v : V) (o : list (string * V)) : list (string * V) :=
  if String.eqb k "__proto__" then o else define k v o.

End Members.
End JsObject.

(** *** JSON.stringify(value, null, 2) *)

Module JSON.

Definition hex_digit (n : N) : ascii :=
  if (n <? 10)%N then byte (48 + n) else byte (87 + n).

(** QuoteJSONString, one character at a time. *)
Definition quote_char (c : ascii) : list ascii :=
  let n := code c in
  if (n =? 8)%N then [backslash; "b"%char]
  else if (n =? 9)%N then [backslash; "t"%char]
  else if (n =? 10)%N then [backslash; "n"%char]
  else if (n =? 12)%N then [backslash; "f"%char]
  else if (n =? 13)%N then [backslash; "r"%char]
  else if (n =? 34)%N then [backslash; dquote]
  else if (n =? 92)%N then [backslash; backslash]
  else if (n <? 32)%N then
    [backslash; "u"%char; "0"%char; "0"%char; hex_digit (n / 16); hex_digit (n mod 16)]
  else [c].

Fixpoint quote_body (s : list ascii) : list ascii :=
  match s with
  | [] => []
  | c :: s' => quote_char c ++ quote_body s'
  end.

Definition quote (s : string) : list ascii :=
  dquote :: quote_body (chars s) ++ [dquote].

Definition line_break (indent : nat) : list ascii := newline :: spaces indent.

(** SerializeJSONProperty with gap of two spaces; [indent] is the current
    indentation. *)
Fixpoint serialize (indent : nat) (v : json) : list ascii :=
  match v with
  | JNull => chars "null"
  | JBool true => chars "true"
  | JBool false => chars "false"
  | JNum lit => chars lit
  | JStr s => quote s
  | JArr [] => chars "[]"
  | JArr items =>
      chars "[" ++ line_break (2 + indent)
      ++ join (chars "," ++ line_break (2 + indent))
              (map (serialize (2 + indent)) items)
      ++ line_break indent ++ chars "]"
  | JObj [] => chars "{}"
  | JObj members =>
      chars "{" ++ line_break (2 + indent)
      ++ join (chars "," ++ line_break (2 + indent))
              (map (fun kv => quote (fst kv) ++ chars ": " ++ serialize (2 + indent) (snd kv))
                   members)
      ++ line_break indent ++ chars "}"
  end.

(** [JSON.stringify(v, null, 2)] *)
Definition stringify (v : json) : string := str (serialize 0 v).

(** *** JSON.parse *)

Definition is_ws (c : ascii) : bool :=
  let n := code c in ((n =? 32) || (n =? 10) || (n =? 13) || (n =? 9))%N.

Fixpoint skip_ws (s : list ascii) : list ascii :=
  match s with
  | [] => []
  | c :: r => if is_ws c then skip_ws r else s
  end.

Definition hex_value (c : ascii) : option N :=
  let n := code c in
  if ((48 <=? n) && (n <=? 57))%N then Some (n - 48)%N
  else if ((97 <=? n) && (n <=? 102))%N then Some (n - 87)%N
  else if ((65 <=? n) && (n <=? 70))%N then Some (n - 55)%N
  else None.

Definition hex4 (a b c d : ascii) : option N :=
  match hex_value a, hex_value b, hex_value c, hex_value d with
  | Some x, Some y, Some z, Some w => Some (4096 * x + 256 * y + 16 * z + w)%N
  | _, _, _, _ => None
  end.

Definition simple_escape (e : ascii) : option ascii :=
  let n := code e in
  if (n =? 34)%N then Some dquote
  else if (n =? 92)%N then Some backslash
  else if (n =? 47)%N then Some "/"%char
  else if (n =? 98)%N then Some (byte 8)
  else if (n =? 102)%N then Some (byte 12)
  else if (n =? 110)%N then Some (byte 10)
  else if (n =? 114)%N then Some (byte 13)
  else if (n =? 116)%N then Some (byte 9)
  else None.

Definition is_high_surrogate (n : N) : bool := ((55296 <=? n) && (n <=? 56319))%N.
Definition is_low_surrogate (n : N) : bool := ((56320 <=? n) && (n <=? 57343))%N.

(** The low half of a surrogate pair written as a second [\u] escape. *)
Definition low_escape (s : list ascii) : option N :=
  match s with
  | b :: u :: h1 :: h2 :: h3 :: h4 :: _ =>
      if same b backslash && same u "u"%char then
        match hex4 h1 h2 h3 h4 with
        | Some lo => if is_low_surrogate lo then Some lo else None
        | None => None
        end
      else None
  | _ => None
  end.

Definition with_head (l : list ascii) (r : option (list ascii * list ascii))
  : option (list ascii * list ascii) :=
  match r with
  | Some (body, rest) => Some (l ++ body, rest)
  | None => None
  end.

(** The characters of a string literal after its opening quote, up to and
    including the closing quote. *)
Fixpoint parse_string_body (s : list ascii) : option (list ascii * list ascii) :=
  match s with
  | [] => None
  | c :: r =>
      if same c dquote then Some ([], r)
      else if same c backslash then
        match r with
        | [] => None
        | e :: r1 =>
            if same e "u"%char then
              match r1 with
              | h1 :: h2 :: h3 :: h4 :: r2 =>
                  match hex4 h1 h2 h3 h4 with
                  | None => None
                  | Some cp =>
                      match (if is_high_surrogate cp then low_escape r2 else None), r2 with
                      | Some lo, _ :: _ :: _ :: _ :: _ :: _ :: r3 =>
                          with_head
                            (utf8 (65536 + (cp - 55296) * 1024 + (lo - 56320)))
                            (parse_string_body r3)
                      | _, _ => with_head (utf8 cp) (parse_string_body r2)
                      end
                  end
              | _ => None
              end
            else
              match simple_escape e with
              | Some x => with_head [x] (parse_string_body r1)
              | None => None
              end
        end
      else if (code c <? 32)%N then None
      else with_head [c] (parse_string_body r)
  end.

Fixpoint span_digits (s : list ascii) : list ascii * list ascii :=
  match s with
  | [] => ([], [])
  | c :: r =>
      if JsObject.is_digit c
      then let '(ds, rest) := span_digits r in (c :: ds, rest)
      else ([], s)
  end.

Definition parse_int (s : list ascii) : option (list ascii * list ascii) :=
  match s with
  | [] => None
  | c :: r =>
      if same c "0"%char then Some ([c], r)
      else if JsObject.is_digit c
      then let '(ds, rest) := span_digits r in Some (c :: ds, rest)
      else None
  end.

Definition parse_frac (s : list ascii) : option (list ascii * list ascii) :=
  match s with
  | c :: r =>
      if same c "."%char then
        match span_digits r with
        | ([], _) => None
        | (ds, rest) => Some (c :: ds, rest)
        end
      else Some ([], s)
  | [] => Some ([], s)
  end.

Definition parse_exp (s : list ascii) : option (list ascii * list ascii) :=
  match s with
  | c :: r =>
      if same c "e"%char || same c "E"%char then
        let '(sign, r1) :=
          match r with
          | g :: r' => if same g "+"%char || same g "-"%char then ([g], r') else ([], r)
          | [] => ([], r)
          end in
        match span_digits r1 with
        | ([], _) => None
        | (ds, rest) => Some (c :: sign ++ ds, rest)
        end
      else Some ([], s)
  | [] => Some ([], s)
  end.

Definition parse_number (s : list ascii) : option (list ascii * list ascii) :=
  let '(sign, s1) :=
    match s with
    | c :: r => if same c "-"%char then ([c], r) else ([], s)
    | [] => ([], s)
    end in
  match parse_int s1 with
  | None => None
  | Some (i, s2) =>
      match parse_frac s2 with
      | None => None
      | Some (f, s3) =>
          match parse_exp s3 with
          | None => None
          | Some (e, s4) => Some (sign ++ i ++ f ++ e, s4)
          end
      end
  end.

Definition keyword (w : string) (v : json) (s : list ascii) : option (json * list ascii) :=
  match starts (chars w) s with
  | Some rest => Some (v, rest)
  | None => None
  end.

(** An object is built by defining its members in source order; a repeated
    key keeps its first position and takes the last value. *)
Definition build_object (members : list (string * json)) : json :=
  JObj (fold_left (fun o kv => JsObject.define (fst kv) (snd kv) o) members []).

Fixpoint parse_value (fuel : nat) (s : list ascii) : option (json * list ascii) :=
  match fuel with
  | O => None
  | S fuel' =>
      match skip_ws s with
      | [] => None
      | c :: r =>
          if same c "{"%char then
            match skip_ws r with
            | [] => None
            | c' :: r' =>
                if same c' "}"%char then Some (JObj [], r')
                else
                  match parse_members fuel' (c' :: r') with
                  | Some (ms, rest) => Some (build_object ms, rest)
                  | None => None
                  end
            end
          else if same c "["%char then
            match skip_ws r with
            | [] => None
            | c' :: r' =>
                if same c' "]"%char then Some (JArr [], r')
                else
                  match parse_elements fuel' (c' :: r') with
                  | Some (vs, rest) => Some (JArr vs, rest)
                  | None => None
                  end
            end
          else if same c dquote then
            match parse_string_body r with
            | Some (body, rest) => Some (JStr (str body), rest)
            | None => None
            end
          else if same c "t"%char then keyword "true" (JBool true) (c :: r)
          else if same c "f"%char then keyword "false" (JBool false) (c :: r)
          else if same c "n"%char then keyword "null" JNull (c :: r)
          else
            match parse_number (c :: r) with
            | Some (lit, rest) => Some (JNum (str lit), rest)
            | None => None
            end
      end
  end

with parse_elements (fuel : nat) (s : list ascii) : option (list json * list ascii) :=
  match fuel with
  | O => None
  | S fuel' =>
      match parse_value fuel' s with
      | None => None
      | Some (v, r) =>
          match skip_ws r with
          | [] => None
          | c :: r' =>
              if same c ","%char then
                match parse_elements fuel' r' with
                | Some (vs, rest) => Some (v :: vs, rest)
                | None => None
                end
              else if same c "]"%char then Some ([v], r')
              else None
          end
      end
  end

with parse_members (fuel : nat) (s : list ascii)
  : option (list (string * json) * list ascii) :=
  match fuel with
  | O => None
  | S fuel' =>
      match skip_ws s with
      | [] => None
      | q :: r0 =>
          if same q dquote then
            match parse_string_body r0 with
            | None => None
            | Some (key, r1) =>
                match skip_ws r1 with
                | [] => None
                | colon :: r2 =>
                    if same colon ":"%char then
                      match parse_value fuel' r2 with
                      | None => None
                      | Some (v, r3) =>
                          match skip_ws r3 with
                          | [] => None
                          | c :: r4 =>
                              if same c ","%char then
                                match parse_members fuel' r4 with
                                | Some (ms, rest) => Some ((str key, v) :: ms, rest)
                                | None => None
                                end
                              else if same c "}"%char then Some ([(str key, v)], r4)
                              else None
                          end
                      end
                    else None
                end
            end
          else None
      end
  end.

(** [JSON.parse(text)]; [None] stands for the SyntaxError it throws. *)
Definition parse (text : string) : option json :=
  let s := chars text in
  match parse_value (2 * length s + 2) s with
  | Some (v, rest) =>
      match skip_ws rest with
      | [] => Some v
      | _ :: _ => None
      end
  | None => None
  end.

End JSON.

(** ** The two regular-expression replacements of the agent *)

Module Regex.

(** One match of [/```json\n?|\n?```/] anchored at the head of [s]: the
    number of characters it spans.  The first alternative is tried first and
    each optional newline is taken when present. *)
Definition fence_at (s : list ascii) : option nat :=
  match starts (chars "```json") s with
  | Some rest =>
      match rest with
      | c :: _ => if same c newline then Some 8%nat else Some 7%nat
      | [] => Some 7%nat
      end
  | None =>
      match starts (newline :: chars "```") s with
      | Some _ => Some 4%nat
      | None =>
          match starts (chars "```") s with
          | Some _ => Some 3%nat
          | None => None
          end
      end
  end.

(** [s.replace(/```json\n?|\n?```/g, '')]: scan left to right; [skip] counts
    the characters of the current match still to be dropped. *)
Fixpoint strip_fences_from (skip : nat) (s : list ascii) : list ascii :=
  match s with
  | [] => []
  | c :: r =>
      match skip with
      | S k => strip_fences_from k r
      | O =>
          match fence_at s with
          | Some (S k) => strip_fences_from k r
          | _ => c :: strip_fences_from 0 r
          end
      end
  end.

Definition strip_fences (s : list ascii) : list ascii := strip_fences_from 0 s.

(** The match of [/this\.tools = \[([\s\S]*?)\];/] in [s]: the text before
    the match, the captured group and the text after the match.  The lazy
    group ends at the first [];] that follows the first [this.tools = []. *)
Definition seed_block (s : list ascii)
  : option (list ascii * list ascii * list ascii) :=
  match find (chars "this.tools = [") s with
  | None => None
  | Some (before, rest) =>
      match find (chars "];") rest with
      | None => None
      | Some (group, after) => Some (before, group, after)
      end
  end.

(** GetSubstitution for a pattern with one capturing group: the [$]
    sequences of the replacement text are expanded. *)
Fixpoint substitution (before matched group after template : list ascii) : list ascii :=
  match template with
  | [] => []
  | c :: r =>
      if same c dollar then
        match r with
        | d :: r1 =>
            if same d dollar then dollar :: substitution before matched group after r1
            else if same d "&"%char then matched ++ substitution before matched group after r1
            else if same d backtick then before ++ substitution before matched group after r1
            else if same d "'"%char then after ++ substitution before matched group after r1
            else if same d "1"%char then group ++ substitution before matched group after r1
            else if same d "0"%char then
              match r1 with
              | e :: r2 =>
                  if same e "1"%char
                  then group ++ substitution before matched group after r2
                  else c :: substitution before matched group after r
              | [] => c :: substitution before matched group after r
              end
            else c :: substitution before matched group after r
        | [] => [c]
        end
      else c :: substitution before matched group after r
  end.

(** [s.replace(/this\.tools = \[([\s\S]*?)\];/, template)]: the first match
    only; a text without a match is returned unchanged. *)
Definition replace_seed_block (s template : list ascii) : list ascii :=
  match seed_block s with
  | None => s
  | Some (before, group, after) =>
      let matched := chars "this.tools = [" ++ group ++ chars "];" in
      before ++ substitution before matched group after template ++ after
  end.

End Regex.

(** ** Data model of [index.ts] *)

Notation "a ^^ b" := (String.append a b) (at level 60, right associativity).

Definition dq : string := String dquote EmptyString.

Inductive Role : Type := system | user | assistant.

Record Message : Type := { role : Role; content : string }.

Record Tool : Type := { name : string; description : string; implementation : string }.

(** A JavaScript value as far as the agent observes it: [undefined], or a
    value with a JSON image. *)
Inductive JsValue : Type :=
  | VUndefined
  | VJson (j : json).

Record ToolResult : Type :=
  { success : bool; result : JsValue; error : option string }.

(** What a [catch] clause receives: an [Error] instance with its message,
    or another value with its [String(...)] conversion. *)
Inductive Thrown : Type :=
  | ErrorObject (message : string)
  | OtherValue (text : string).

(** One element of [aiResponse.actions]; [args] is [None] when the property
    is absent or null. *)
Record Action : Type := { tool : string; args : option (list json) }.

(** The decision object read at the interface types. *)
Record AgentDecision : Type :=
  { actions : list Action; newTools : list Tool; response : string }.

Definition role_name (r : Role) : string :=
  match r with
  | system => "system"
  | user => "user"
  | assistant => "assistant"
  end.

(** *** Encoding into JSON, as [JSON.stringify] sees the objects *)

Definition message_json (m : Message) : json :=
  JObj [("role"%string, JStr (role_name (role m))); ("content"%string, JStr (content m))].

Definition history_json (h : list Message) : json := JArr (map message_json h).

(** The text of one turn inside the serialised history, and the separator
    between two turns. *)
Definition message_text (m : Message) : list ascii :=
  JSON.serialize 2 (message_json m).

Definition history_sep : list ascii := chars "," ++ JSON.line_break 2.

Definition tool_json (t : Tool) : json :=
  JObj [("name"%string, JStr (name t));
        ("description"%string, JStr (description t));
        ("implementation"%string, JStr (implementation t))].

(** A property whose value is [undefined] is left out. *)
Definition toolResult_json (r : ToolResult) : json :=
  JObj ([("success"%string, JBool (success r))]
        ++ match result r with
           | VUndefined => []
           | VJson j => [("result"%string, j)]
           end
        ++ match error r with
           | None => []
           | Some e => [("error"%string, JStr e)]
           end).

Definition toolResults_json (rs : list (string * ToolResult)) : json :=
  JObj (map (fun kr => (fst kr, toolResult_json (snd kr))) rs).

(** *** Decoding from JSON at the interface types *)

Definition decode_role (j : json) : option Role :=
  match j with
  | JStr s =>
      if String.eqb s "system" then Some system
      else if String.eqb s "user" then Some user
      else if String.eqb s "assistant" then Some assistant
      else None
  | _ => None
  end.

Definition decode_message (j : json) : option Message :=
  match j with
  | JObj [(k1, r); (k2, JStr c)] =>
      if String.eqb k1 "role" && String.eqb k2 "content" then
        match decode_role r with
        | Some r' => Some {| role := r'; content := c |}
        | None => None
        end
      else None
  | _ => None
  end.

Fixpoint decode_list {A : Type} (f : json -> option A) (l : list json) : option (list A) :=
  match l with
  | [] => Some []
  | j :: l' =>
      match f j, decode_list f l' with
      | Some a, Some r => Some (a :: r)
      | _, _ => None
      end
  end.

Definition decode_history (j : json) : option (list Message) :=
  match j with
  | JArr l => decode_list decode_message l
  | _ => None
  end.

Definition decode_tool (j : json) : option Tool :=
  match j with
  | JObj [(k1, JStr n); (k2, JStr d); (k3, JStr i)] =>
      if String.eqb k1 "name" && String.eqb k2 "description"
         && String.eqb k3 "implementation"
      then Some {| name := n; description := d; implementation := i |}
      else None
  | _ => None
  end.

Definition decode_action (j : json) : option Action :=
  match j with
  | JObj ms =>
      match JsObject.get "tool" ms with
      | Some (JStr t) =>
          match JsObject.get "args" ms with
          | None | Some JNull => Some {| tool := t; args := None |}
          | Some (JArr l) => Some {| tool := t; args := Some l |}
          | Some _ => None
          end
      | _ => None
      end
  | _ => None
  end.

(** An absent or null array property is read as the empty list: the guards
    [x && x.length > 0] of [processUserInput] treat them alike. *)
Definition decode_array {A : Type} (f : json -> option A) (o : option json)
  : option (list A) :=
  match o with
  | None | Some JNull => Some []
  | Some (JArr l) => decode_list f l
  | Some _ => None
  end.

Definition decode_decision (j : json) : option AgentDecision :=
  match j with
  | JObj ms =>
      match decode_array decode_action (JsObject.get "actions" ms),
            decode_array decode_tool (JsObject.get "newTools" ms),
            JsObject.get "response" ms with
      | Some a, Some n, Some (JStr r) =>
          Some {| actions := a; newTools := n; response := r |}
      | _, _, _ => None
      end
  | _ => None
  end.

(** ** The agent *)

(** The outcome of running a method: a value, an exception that escapes
    it, the end of the process ([process.exit]), or a value outside the
    interface types. *)
Inductive Outcome (A : Type) : Type :=
  | Ok (a : A)
  | Throw (e : Thrown)
  | Exit (status : Z)
  | IllTyped.

Arguments Ok {A} a.
Arguments Throw {A} e.
Arguments Exit {A} status.
Arguments IllTyped {A}.

(** What the completion provider answers: the call fails, or it yields the
    [message.content] of each choice ([None] for [null]). *)
Inductive Completion : Type :=
  | ProviderError (e : Thrown)
  | Choices (contents : list (option string)).

(** How the promise of a compiled and called tool settles. *)
Inductive Settled : Type :=
  | Returned (v : JsValue)
  | Rejected (e : Thrown).

Definition historyFile : string := "history.json".
Definition mainFile : string := "index.ts".

Definition prompt_head : string :=
  "You are an AI agent capable of using and generating tools/functions.

Available tools:
".

Definition prompt_tail : string :=
  "

IMPORTANT: You must ALWAYS respond with a valid JSON object in the following format:
{
  " ^^ dq ^^ "reasoning" ^^ dq ^^ ": " ^^ dq ^^ "string explaining your thought process" ^^ dq ^^ ",
  " ^^ dq ^^ "actions" ^^ dq ^^ ": [
    {
      " ^^ dq ^^ "tool" ^^ dq ^^ ": " ^^ dq ^^ "string (name of the tool to use)" ^^ dq ^^ ",
      " ^^ dq ^^ "args" ^^ dq ^^ ": [" ^^ dq ^^ "arg1" ^^ dq ^^ ", " ^^ dq ^^ "arg2" ^^ dq ^^ "]
    }
  ],
  " ^^ dq ^^ "newTools" ^^ dq ^^ ": [
    {
      " ^^ dq ^^ "name" ^^ dq ^^ ": " ^^ dq ^^ "string" ^^ dq ^^ ",
      " ^^ dq ^^ "description" ^^ dq ^^ ": " ^^ dq ^^ "string" ^^ dq ^^ ",
      " ^^ dq ^^ "implementation" ^^ dq ^^ ": " ^^ dq ^^ "function foo() { return 'bar'; }
 return foo();" ^^ dq ^^ "
    }
  ],
  " ^^ dq ^^ "response" ^^ dq ^^ ": " ^^ dq ^^ "string (your response to the user)" ^^ dq ^^ "
}

Rules:
1. Your response MUST be a valid JSON object
2. All property names must be in quotes
3. All string values must be in quotes
4. Arrays can be empty but must be present
5. Do not include any text before or after the JSON object

When generating new tools:
1. Each tool should be focused and do one thing well
2. Include proper error handling
3. Tool implementations should be valid JavaScript code and must return a value (not just a function call)
4. Tool implementations MUST ALWAYS end in a return statement
5. No, really, make sure you always return a value - the last line of MUST always be a return statement
6. Always use modern ESNext syntax
7. Never use imports or external libraries
8. When using a free API, always actually use the API - don't simulate one".

Definition body_before : string :=
  "
        try {
          ".

Definition body_after : string :=
  "
        } catch (error) {
          throw new Error(`Tool execution failed: ${error.message}`);
        }
      ".

Definition basic_tools : list Tool :=
  [{| name := "readMainFile";
     description := "Reads the contents of the main index.ts file";
     implementation := "
          const content = readFileSync('index.ts', 'utf-8');
          return content;
        " |};
   {| name := "writeMainFile";
     description := "Writes content to the main index.ts file";
     implementation := "
          writeFileSync('index.ts', arg0);
          return 'File written successfully';
        " |};
   {| name := "listFiles";
     description := "Lists all files in the current working directory";
     implementation := "
          const files = readdirSync('.');
          return files;
        " |}].

(** The decision returned when the provider call or the parse fails. *)
Definition fallback : json :=
  JObj [("reasoning"%string, JStr "Failed to generate proper response");
        ("actions"%string, JArr []);
        ("newTools"%string, JArr []);
        ("response"%string, JStr "Error: Failed to process the request. Please try again.")].

Definition toolDescriptions (ts : list Tool) : string :=
  String.concat (String newline EmptyString)
                (map (fun t => name t ^^ ": " ^^ description t) ts).

Definition getSystemPrompt (ts : list Tool) : string :=
  prompt_head ^^ toolDescriptions ts ^^ prompt_tail.

(** [args.map((_, i) => `arg${i}`)] *)
Definition parameter_names (n : nat) : list string :=
  map (fun i => "arg" ^^ str (decimal i)) (seq 0 n).

Definition function_body (impl : string) : string :=
  body_before ^^ impl ^^ body_after.

Definition not_found (nm : string) : string := "Tool '" ^^ nm ^^ "' not found".

(** [error instanceof Error ? error.message : String(error)] *)
Definition error_text (e : Thrown) : string :=
  match e with
  | ErrorObject m => m
  | OtherValue t => t
  end.

Definition tools_section (ts : list Tool) : list ascii :=
  join (chars "," ++ [newline]) (map (fun t => JSON.serialize 0 (tool_json t)) ts).

Definition seed_template (ts : list Tool) : list ascii :=
  chars "this.tools = [" ++ [newline] ++ tools_section ts ++ [newline] ++ chars "];".

(** [content.replace(/```json\n?|\n?```/g, '').trim()] *)
Definition jsonStr_of (content : string) : string :=
  str (trim (Regex.strip_fences (chars content))).

(** [completion.choices[0].message.content || '{}'] *)
Definition content_or_default (c : option string) : string :=
  match c with
  | None => "{}"
  | Some t => if String.eqb t EmptyString then "{}" else t
  end.

(** What [generateResponse] makes of a completion (see
    [generateResponse_eq]): the value parsed in its [try] block, or the
    fallback of its [catch] clause when the provider call, the access to
    [choices[0]] or [JSON.parse] throws. *)
Definition read_completion (c : Completion) : json :=
  match c with
  | ProviderError _ => fallback
  | Choices [] => fallback
  | Choices (first :: _) =>
      match JSON.parse (jsonStr_of (content_or_default first)) with
      | Some parsed => parsed
      | None => fallback
      end
  end.

Definition results_turn (rs : list (string * ToolResult)) : Message :=
  {| role := system;
     content := "Tool execution results:" ^^ String newline EmptyString
                ^^ JSON.stringify (toolResults_json rs)
                ^^ String newline (String newline EmptyString)
                ^^ "Remember to respond with a valid JSON object as specified in the format above." |}.

Section Agent.

(** The state outside the agent that the provider and the tools may depend
    on and change. *)
Context {Ext : Type}.

Record World : Type := { files : gmap string string; ext : Ext }.

(** The fields of [AIAgent], the world, and the list of prompts passed to
    the provider so far (a record of the calls, not a field of the class). *)
Record State : Type :=
  { history : list Message;
    tools : list Tool;
    world : World;
    sent : list (list Message) }.

(** [openai.chat.completions.create({messages, ...})] *)
Variable complete : list Message -> Ext -> Completion * Ext.

(** [await new Function(...params, body)(...args)]: compiling the body and
    calling it, both of which may throw, and awaiting what it returns. *)
Variable runFunction : list string -> string -> list json -> World -> Settled * World.

Definition M (A : Type) : Type := State -> Outcome A * State.

Definition ret {A : Type} (a : A) : M A := fun st => (Ok a, st).

Definition bind {A B : Type} (m : M A) (k : A -> M B) : M B :=
  fun st =>
    match m st with
    | (Ok a, st') => k a st'
    | (Throw e, st') => (Throw e, st')
    | (Exit z, st') => (Exit z, st')
    | (IllTyped, st') => (IllTyped, st')
    end.

Notation "x <- m ;; k" := (bind m (fun x => k))
  (at level 100, m at level 99, right associativity).
Notation "m ;;; k" := (bind m (fun _ => k))
  (at level 100, k at level 200, right associativity).

(** [try { m } catch (e) { handler(e) }]: only an exception is caught. *)
Definition try_catch {A : Type} (m : M A) (handler : Thrown -> M A) : M A :=
  fun st =>
    match m st with
    | (Throw e, st') => handler e st'
    | other => other
    end.

Definition throw {A : Type} (e : Thrown) : M A := fun st => (Throw e, st).

Definition set_history (h : list Message) (st : State) : State :=
  {| history := h; tools := tools st; world := world st; sent := sent st |}.

Definition set_tools (ts : list Tool) (st : State) : State :=
  {| history := history st; tools := ts; world := world st; sent := sent st |}.

Definition set_world (w : World) (st : State) : State :=
  {| history := history st; tools := tools st; world := w; sent := sent st |}.

Definition set_files (fs : gmap string string) (w : World) : World :=
  {| files := fs; ext := ext w |}.

Definition writeFileSync (path data : string) : M unit :=
  fun st => (Ok tt, set_world (set_files (<[path := data]> (files (world st))) (world st)) st).

(** Reading a file that does not exist throws. *)
Definition readFileSync (path : string) : M string :=
  fun st =>
    match files (world st) !! path with
    | Some data => (Ok data, st)
    | None => (Throw (ErrorObject ("ENOENT: no such file or directory, open '" ^^ path ^^ "'")), st)
    end.

(** [this.history.push(m)] *)
Definition push_history (m : Message) : M unit :=
  fun st => (Ok tt, set_history (history st ++ [m]) st).

(** [JSON.parse(text)] as a call that may throw. *)
Definition JSON_parse (text : string) : M json :=
  match JSON.parse text with
  | Some j => ret j
  | None => throw (ErrorObject "JSON Parse error")
  end.

(** Reading the parsed file at the type [Message[]] of the field. *)
Definition as_history (j : json) : M (list Message) :=
  fun st =>
    match decode_history j with
    | Some h => (Ok h, st)
    | None => (IllTyped, st)
    end.

Definition loadHistory : M unit :=
  try_catch
    (data <- readFileSync historyFile ;;
     j <- JSON_parse data ;;
     h <- as_history j ;;
     (fun st => (Ok tt, set_history h st)))
    (fun _ => (fun st => (Ok tt, set_history [] st))).

Definition saveHistory : M unit :=
  fun st => writeFileSync historyFile (JSON.stringify (history_json (history st))) st.

(** [this.tools = [...]]: the registry is set to the seed block of the
    source that runs, [basic_tools] in this revision and the registry last
    committed once [updateTools] has rewritten the source. *)
Definition initializeBasicTools (seed : list Tool) : M unit :=
  fun st => (Ok tt, set_tools seed st).

(** [await fn(...args)] for the function compiled from [body]: a rejection
    (or an exception while compiling or calling) is thrown at the [await]. *)
Definition call_function (params : list string) (body : string) (arguments : list json)
  : M JsValue :=
  fun st =>
    match runFunction params body arguments (world st) with
    | (Returned v, w) => (Ok v, set_world w st)
    | (Rejected e, w) => (Throw e, set_world w st)
    end.

Definition executeTool (nm : string) (arguments : list json) : M ToolResult :=
  match_tool <- (fun st => (Ok (List.find (fun t => String.eqb (name t) nm) (tools st)), st)) ;;
  match match_tool with
  | None =>
      ret {| success := false; result := VJson JNull; error := Some (not_found nm) |}
  | Some t =>
      try_catch
        (v <- call_function (parameter_names (length arguments))
                            (function_body (implementation t)) arguments ;;
         ret {| success := true; result := v; error := None |})
        (fun e =>
           ret {| success := false; result := VJson JNull;
                  error := Some (error_text e) |})
  end.

(** The [messages] array of [generateResponse]. *)
Definition messages_for (st : State) (input : string)
    (toolResults : option (list (string * ToolResult))) : list Message :=
  [{| role := system; content := getSystemPrompt (tools st) |}]
  ++ map (fun msg => {| role := role msg; content := content msg |}) (history st)
  ++ [{| role := user; content := input |}]
  ++ match toolResults with
     | Some rs => [results_turn rs]
     | None => []
     end.

(** [await this.openai.chat.completions.create({messages, ...})]: the
    prompt is recorded, the provider answers, and a failed call throws. *)
Definition create_completion (messages : list Message) : M (list (option string)) :=
  fun st =>
    let '(completion, e) := complete messages (ext (world st)) in
    let st' :=
      {| history := history st; tools := tools st;
         world := {| files := files (world st); ext := e |};
         sent := sent st ++ [messages] |} in
    match completion with
    | ProviderError err => (Throw err, st')
    | Choices contents => (Ok contents, st')
    end.

(** [completion.choices[0].message.content]: without a first choice the
    property access throws a TypeError. *)
Definition first_content (choices : list (option string)) : M (option string) :=
  match choices with
  | first :: _ => ret first
  | [] => throw (ErrorObject "undefined is not an object (evaluating 'completion.choices[0].message')")
  end.

Definition generateResponse (input : string)
    (toolResults : option (list (string * ToolResult))) : M json :=
  fun st =>
    let messages := messages_for st input toolResults in
    try_catch
      (choices <- create_completion messages ;;
       first <- first_content choices ;;
       JSON_parse (jsonStr_of (content_or_default first)))
      (fun _ => ret fallback) st.

(** [this.tools.push(...newTools)] *)
Definition push_tools (new_tools : list Tool) : M unit :=
  fun st => (Ok tt, set_tools (tools st ++ new_tools) st).

Definition updateTools (new_tools : list Tool) : M unit :=
  push_tools new_tools ;;;
  currentFile <- readFileSync mainFile ;;
  (fun st =>
     let updatedFile :=
       str (Regex.replace_seed_block (chars currentFile) (seed_template (tools st))) in
     writeFileSync mainFile updatedFile st).

Definition restart : M unit :=
  saveHistory ;;; (fun st => (Exit 0%Z, st)).

(** Reading [aiResponse] at the type of a decision. *)
Definition as_decision (j : json) : M AgentDecision :=
  fun st =>
    match decode_decision j with
    | Some d => (Ok d, st)
    | None => (IllTyped, st)
    end.

(** The loop over [aiResponse.actions] filling [toolResults]. *)
Fixpoint run_actions (acts : list Action) (acc : list (string * ToolResult))
  : M (list (string * ToolResult)) :=
  match acts with
  | [] => ret acc
  | a :: rest =>
      r <- executeTool (tool a) (default [] (args a)) ;;
      run_actions rest (JsObject.assign (tool a) r acc)
  end.

Definition processUserInput (input : string) : M string :=
  push_history {| role := user; content := input |} ;;;
  aiResponse <- generateResponse input None ;;
  d <- as_decision aiResponse ;;
  d <- match actions d with
       | [] => ret d
       | _ :: _ =>
           toolResults <- run_actions (actions d) [] ;;
           aiResponse' <- generateResponse input (Some toolResults) ;;
           as_decision aiResponse'
       end ;;
  match newTools d with
  | [] => ret tt
  | _ :: _ => updateTools (newTools d) ;;; restart
  end ;;;
  push_history {| role := assistant; content := response d |} ;;;
  saveHistory ;;;
  ret (response d).

(** The two parts of [processUserInput].  First the user turn is recorded,
    a decision is requested and, if it names actions, they are run and a
    second decision is requested with their results. *)
Definition decide_turn (input : string) : M AgentDecision :=
  push_history {| role := user; content := input |} ;;;
  aiResponse <- generateResponse input None ;;
  d <- as_decision aiResponse ;;
  match actions d with
  | [] => ret d
  | _ :: _ =>
      toolResults <- run_actions (actions d) [] ;;
      aiResponse' <- generateResponse input (Some toolResults) ;;
      as_decision aiResponse'
  end.

(** Then new tools are committed and the process restarts; otherwise the
    reply is recorded and returned. *)
Definition conclude_turn (d : AgentDecision) : M string :=
  match newTools d with
  | [] => ret tt
  | _ :: _ => updateTools (newTools d) ;;; restart
  end ;;;
  push_history {| role := assistant; content := response d |} ;;;
  saveHistory ;;;
  ret (response d).

(** The state in which [processUserInput] returns the response of [d]. *)
Definition replied (d : AgentDecision) (st : State) : State :=
  let h := history st ++ [{| role := assistant; content := response d |}] in
  {| history := h; tools := tools st;
     world := set_files (<[historyFile := JSON.stringify (history_json h)]>
                           (files (world st))) (world st);
     sent := sent st |}.

(** The state in which [processUserInput] ends the process after
    committing the new tools of [d] to a main file that held [currentFile]. *)
Definition rewritten (d : AgentDecision) (currentFile : string) (st : State) : State :=
  let ts := tools st ++ newTools d in
  let updatedFile :=
    str (Regex.replace_seed_block (chars currentFile) (seed_template ts)) in
  {| history := history st; tools := ts;
     world := set_files
                (<[historyFile := JSON.stringify (history_json (history st))]>
                   (<[mainFile := updatedFile]> (files (world st)))) (world st);
     sent := sent st |}.

(** The turns that [loadHistory] finds in the history file. *)
Definition stored_turns (w : World) : option (list Message) :=
  match files w !! historyFile with
  | None => Some []
  | Some data =>
      match JSON.parse data with
      | None => Some []
      | Some j => decode_history j
      end
  end.

(** The check at start-up: a last turn from the user is processed again. *)
Definition replay_last : M (option string) :=
  fun st =>
    match last (history st) with
    | Some {| role := user; content := c |} =>
        (r <- processUserInput c ;; ret (Some r)) st
    | _ => (Ok None, st)
    end.

(** Start of the process whose source holds [seed]: the constructor of
    [AIAgent] on a fresh object, then the check of the last turn. *)
Definition startup (seed : list Tool) (w : World) : Outcome (option string) * State :=
  (loadHistory ;;; initializeBasicTools seed ;;; replay_last)
    {| history := []; tools := []; world := w; sent := [] |}.


End Agent.

(** ** Notions used in the statements *)

Definition user_turn (c : string) : Message := {| role := user; content := c |}.
Definition assistant_turn (c : string) : Message := {| role := assistant; content := c |}.
Definition system_turn (c : string) : Message := {| role := system; content := c |}.


(** The turns of a conversation in which every input got its reply. *)
Fixpoint conversation (inputs replies : list string) : list Message :=
  match inputs, replies with
  | i :: inputs', r :: replies' => user_turn i :: assistant_turn r :: conversation inputs' replies'
  | _, _ => []
  end.



(** A value other than [undefined] and [null]. *)
Definition carries_value (v : JsValue) : Prop :=
  v <> VUndefined /\ v <> VJson JNull.

(** The prompt with the current input as its only new user turn. *)
Definition single_input_prompt (ts : list Tool) (prior : list Message) (input : string)
    (toolResults : option (list (string * ToolResult))) : list Message :=
  system_turn (getSystemPrompt ts) :: prior
  ++ user_turn input
  :: match toolResults with Some rs => [results_turn rs] | None => [] end.

(** The source in which the seed block holds exactly the tools [ts]. *)
Definition source_with_seed (before after : list ascii) (ts : list Tool) : string :=
  str (before ++ seed_template ts ++ after).


(** A text between an opening [```json] line and a closing [```] line. *)
Definition fenced (text : string) : string :=
  "```json" ^^ String newline EmptyString ^^ text ^^ String newline EmptyString ^^ "```".



(** ** Concrete providers, engines and states *)

Module Demo.

(** A provider that answers from a script, one completion per call. *)
Definition scripted (_ : list Message) (script : list Completion)
  : Completion * list Completion :=
  match script with
  | c :: rest => (c, rest)
  | [] => (ProviderError (ErrorObject "no completion left"), [])
  end.

Definition returns_null : Tool :=
  {| name := "lookup";
     description := "Looks a key up, null when it is missing";
     implementation := "return null;" |}.

Definition rejects_silently : Tool :=
  {| name := "ping";
     description := "Pings the service";
     implementation := "return Promise.reject(new Error(''));" |}.

(** What JavaScript does with the bodies of the two tools above:
    [return null;] returns [null]; [return Promise.reject(new Error(''))]
    returns a promise that rejects with an [Error] whose message is empty
    (the [try] around the implementation sees no exception, the [await] in
    [executeTool] does).  A body other than these two stands for one that
    returns nothing. *)
Definition engine {Ext : Type} (_ : list string) (body : string) (_ : list json)
    (w : @World Ext) : Settled * @World Ext :=
  if String.eqb body (function_body (implementation returns_null))
  then (Returned (VJson JNull), w)
  else if String.eqb body (function_body (implementation rejects_silently))
  then (Rejected (ErrorObject EmptyString), w)
  else (Returned VUndefined, w).

Definition demo_tools : list Tool :=
  basic_tools ++ [returns_null; rejects_silently].

Definition listFiles : Tool :=
  {| name := "listFiles";
     description := "Lists all files in the current working directory";
     implementation := "return readdirSync('.');" |}.

(** An excerpt of [index.ts]: the text before the seed block, the text
    after it, and the source whose seed block holds [listFiles]. *)
Definition before_seed : list ascii :=
  chars "class AIAgent {
  private initializeBasicTools(): void {
    ".

Definition after_seed : list ascii :=
  chars "
  }
}
".

Definition source : string := source_with_seed before_seed after_seed [listFiles].

(** A tool whose description and implementation contain two dollar signs
    in a row. *)
Definition toUSD : Tool :=
  {| name := "toUSD";
     description := "Formats an amount, e.g. $$5";
     implementation := "return '$$' + arg0;" |}.

Definition blank (script : list Completion) : @World (list Completion) :=
  {| files := ∅; ext := script |}.

Definition with_source (script : list Completion) : @World (list Completion) :=
  {| files := {[ mainFile := source ]}; ext := script |}.

Definition fresh (ts : list Tool) (w : @World (list Completion)) : @State (list Completion) :=
  {| history := []; tools := ts; world := w; sent := [] |}.

Definition decision_text (acts news reply : string) : string :=
  "{" ^^ dq ^^ "reasoning" ^^ dq ^^ ": " ^^ dq ^^ "because" ^^ dq ^^ ", "
  ^^ dq ^^ "actions" ^^ dq ^^ ": [" ^^ acts ^^ "], "
  ^^ dq ^^ "newTools" ^^ dq ^^ ": [" ^^ news ^^ "], "
  ^^ dq ^^ "response" ^^ dq ^^ ": " ^^ dq ^^ reply ^^ dq ^^ "}".

Definition plain_reply (reply : string) : Completion :=
  Choices [Some (decision_text EmptyString EmptyString reply)].

Definition new_tool_text : string :=
  "{" ^^ dq ^^ "name" ^^ dq ^^ ": " ^^ dq ^^ "toUSD" ^^ dq ^^ ", "
  ^^ dq ^^ "description" ^^ dq ^^ ": " ^^ dq ^^ "Formats an amount, e.g. $$5" ^^ dq ^^ ", "
  ^^ dq ^^ "implementation" ^^ dq ^^ ": " ^^ dq ^^ "return '$$' + arg0;" ^^ dq ^^ "}".

(** A provider that gives the same plain reply to every prompt. *)
Definition parrot (_ : list Message) (e : unit) : Completion * unit :=
  (plain_reply "I see", e).

(** What is written for [toUSD] once each pair of dollar signs has been
    replaced by one. *)
Definition toUSD_written : Tool :=
  {| name := "toUSD";
     description := "Formats an amount, e.g. $5";
     implementation := "return '$' + arg0;" |}.

Definition start : @State (list Completion) := fresh demo_tools (blank []).

Definition proposes_toUSD : Completion :=
  Choices [Some (fenced (decision_text EmptyString new_tool_text "done"))].

Definition toUSD_decision : AgentDecision :=
  {| actions := []; newTools := [toUSD]; response := "done" |}.





Definition quiet_start : @State unit :=
  {| history := []; tools := basic_tools; world := {| files := ∅; ext := tt |}; sent := [] |}.

(** A history file that ends with a user turn. *)
Definition interrupted (script : list Completion) : @World (list Completion) :=
  {| files := {[ historyFile := JSON.stringify (history_json [user_turn "add a tool"]) ]};
     ext := script |}.


(** A second tool registered under the name of [returns_null]. *)
Definition second_lookup : Tool :=
  {| name := "lookup";
     description := "Looks a key up in the other table";
     implementation := "return Promise.reject(new Error(''));" |}.

(** A main file without a seed block. *)
Definition without_seed (script : list Completion) : @World (list Completion) :=
  {| files := {[ mainFile := "export const agent = null;"%string ]}; ext := script |}.

(** A history file that was cut off while being written. *)
Definition truncated : @World unit :=
  {| files := {[ historyFile := "[{"%string ]}; ext := tt |}.

Definition answered : @State unit :=
  {| history := [user_turn "hello"; assistant_turn "hi there"];
     tools := basic_tools ++ [toUSD];
     world := {| files := ∅; ext := tt |};
     sent := [] |}.

End Demo.

(** * Properties *)

(** ** Reading back what [JSON.stringify] writes *)

Ltac eval_tests :=
  repeat match goal with
  | |- context [same ?a ?b] =>
      let v := eval vm_compute in (same a b) in
      lazymatch v with
      | true => change (same a b) with true
      | false => change (same a b) with false
      end
  | |- context [JSON.is_ws ?a] =>
      let v := eval vm_compute in (JSON.is_ws a) in
      lazymatch v with
      | true => change (JSON.is_ws a) with true
      | false => change (JSON.is_ws a) with false
      end
  end; cbv iota.

Lemma quote_char_read (c : ascii) (tl : list ascii) :
  JSON.parse_string_body (JSON.quote_char c ++ tl)
  = JSON.with_head [c] (JSON.parse_string_body tl).
Proof.
  destruct c as [[] [] [] [] [] [] [] []]; reflexivity.
Qed.

Lemma quote_body_read (s rest : list ascii) :
  JSON.parse_string_body (JSON.quote_body s ++ dquote :: rest) = Some (s, rest).
Proof.
  induction s as [|c s IH]; [reflexivity|].
  cbn [JSON.quote_body]. rewrite <- app_assoc, quote_char_read, IH. reflexivity.
Qed.

Lemma quote_read (s : string) (rest : list ascii) :
  exists r, JSON.quote s ++ rest = dquote :: r
            /\ JSON.parse_string_body r = Some (chars s, rest).
Proof.
  exists (JSON.quote_body (chars s) ++ dquote :: rest). split.
  - unfold JSON.quote. cbn [app]. now rewrite <- app_assoc.
  - apply quote_body_read.
Qed.

Lemma skip_ws_app (ws : list ascii) (c : ascii) (r : list ascii) :
  forallb JSON.is_ws ws = true -> JSON.is_ws c = false ->
  JSON.skip_ws (ws ++ c :: r) = c :: r.
Proof.
  intros Hws Hc. induction ws as [|w ws IH]; cbn [app JSON.skip_ws].
  - now rewrite Hc.
  - cbn [forallb] in Hws. apply andb_true_iff in Hws as [Hw Hws]. rewrite Hw. auto.
Qed.

Lemma spaces_ws (n : nat) : forallb JSON.is_ws (spaces n) = true.
Proof. induction n; cbn [spaces repeat forallb]; auto. Qed.

Lemma skip_line_break (n : nat) (c : ascii) (r : list ascii) :
  JSON.is_ws c = false -> JSON.skip_ws (JSON.line_break n ++ c :: r) = c :: r.
Proof.
  intros. apply skip_ws_app; auto. unfold JSON.line_break.
  cbn [forallb]. now rewrite spaces_ws.
Qed.

Lemma str_chars (s : string) : str (chars s) = s.
Proof. apply string_of_list_ascii_of_string. Qed.

Lemma chars_str (l : list ascii) : chars (str l) = l.
Proof. apply list_ascii_of_string_of_list_ascii. Qed.

(** A string value, possibly after white space. *)
Lemma read_string (f : nat) (ws : list ascii) (s : string) (rest : list ascii) :
  forallb JSON.is_ws ws = true ->
  JSON.parse_value (S f) (ws ++ JSON.quote s ++ rest) = Some (JStr s, rest).
Proof.
  intros Hws. destruct (quote_read s rest) as (r & -> & Hr).
  cbn [JSON.parse_value]. rewrite skip_ws_app by (auto; reflexivity).
  eval_tests. rewrite Hr. now rewrite str_chars.
Qed.

Lemma read_member (f : nat) (ws ws' : list ascii) (k v : string) (c : ascii)
    (rest : list ascii) :
  forallb JSON.is_ws ws = true ->
  forallb JSON.is_ws ws' = true ->
  JSON.is_ws c = false ->
  JSON.parse_members (S (S f))
    (ws ++ JSON.quote k ++ chars ": " ++ JSON.quote v ++ ws' ++ c :: rest)
  = (if same c ","%char then
       match JSON.parse_members (S f) rest with
       | Some (ms, rest') => Some ((k, JStr v) :: ms, rest')
       | None => None
       end
     else if same c "}"%char then Some ([(k, JStr v)], rest)
     else None).
Proof.
  intros Hws Hws' Hc.
  destruct (quote_read k (chars ": " ++ JSON.quote v ++ ws' ++ c :: rest)) as (r & -> & Hr).
  cbn [JSON.parse_members]. rewrite skip_ws_app by (auto; reflexivity).
  eval_tests. rewrite Hr.
  change (chars ": " ++ JSON.quote v ++ ws' ++ c :: rest)
    with (":"%char :: [space] ++ JSON.quote v ++ ws' ++ c :: rest).
  cbn [JSON.skip_ws]. eval_tests.
  rewrite read_string by reflexivity.
  rewrite skip_ws_app by auto. now rewrite str_chars.
Qed.

Lemma read_first_member (f : nat) (ws' : list ascii) (k v : string) (c : ascii)
    (rest : list ascii) :
  forallb JSON.is_ws ws' = true ->
  JSON.is_ws c = false ->
  JSON.parse_members (S (S f))
    (JSON.quote k ++ chars ": " ++ JSON.quote v ++ ws' ++ c :: rest)
  = (if same c ","%char then
       match JSON.parse_members (S f) rest with
       | Some (ms, rest') => Some ((k, JStr v) :: ms, rest')
       | None => None
       end
     else if same c "}"%char then Some ([(k, JStr v)], rest)
     else None).
Proof. intros H1 H2. exact (read_member f [] ws' k v c rest eq_refl H1 H2). Qed.

Lemma message_text_eq (m : Message) (rest : list ascii) :
  message_text m ++ rest
  = "{"%char ::
    (JSON.line_break 4 ++ JSON.quote "role" ++ chars ": " ++ JSON.quote (role_name (role m))
     ++ [] ++ ","%char ::
    (JSON.line_break 4 ++ JSON.quote "content" ++ chars ": " ++ JSON.quote (content m)
     ++ JSON.line_break 2 ++ "}"%char :: rest)).
Proof.
  unfold message_text, message_json.
  cbn [JSON.serialize map join fst snd chars list_ascii_of_string app].
  repeat (rewrite <- ?app_assoc; cbn [app]). reflexivity.
Qed.

Lemma line_break_ws (n : nat) : forallb JSON.is_ws (JSON.line_break n) = true.
Proof. unfold JSON.line_break. cbn [forallb]. now rewrite spaces_ws. Qed.

Lemma read_message (f : nat) (ws : list ascii) (m : Message) (rest : list ascii) :
  forallb JSON.is_ws ws = true ->
  JSON.parse_value (4 + f) (ws ++ message_text m ++ rest) = Some (message_json m, rest).
Proof.
  intros Hws. rewrite message_text_eq.
  change (4 + f)%nat with (S (S (S (S f)))).
  cbn [JSON.parse_value]. rewrite skip_ws_app by (auto; reflexivity).
  eval_tests.
  destruct (quote_read "role" (chars ": " ++ JSON.quote (role_name (role m))
     ++ [] ++ ","%char ::
    (JSON.line_break 4 ++ JSON.quote "content" ++ chars ": " ++ JSON.quote (content m)
     ++ JSON.line_break 2 ++ "}"%char :: rest))) as (r & Hq & _).
  rewrite Hq. rewrite skip_line_break by reflexivity. eval_tests. rewrite <- Hq.
  rewrite read_first_member by reflexivity.
  eval_tests.
  rewrite read_member by (auto using line_break_ws; reflexivity).
  eval_tests. reflexivity.
Qed.

Lemma read_messages (h : list Message) :
  h <> [] ->
  forall (f : nat) (ws rest : list ascii),
  forallb JSON.is_ws ws = true ->
  JSON.parse_elements (length h + 4 + f)
    (ws ++ join history_sep (map message_text h) ++ JSON.line_break 0 ++ "]"%char :: rest)
  = Some (map message_json h, rest).
Proof.
  induction h as [|m h IH]; [congruence|]. intros _ f ws rest Hws.
  destruct h as [|m' h].
  - cbn [length map join Nat.add JSON.parse_elements].
    rewrite (read_message f) by auto.
    rewrite skip_line_break by reflexivity. eval_tests. reflexivity.
  - change (join history_sep (map message_text (m :: m' :: h)))
      with (message_text m ++ history_sep ++ join history_sep (map message_text (m' :: h))).
    rewrite <- !app_assoc.
    change (length (m :: m' :: h) + 4 + f)%nat with (S (length (m' :: h) + 4 + f)).
    cbn [JSON.parse_elements].
    replace (length (m' :: h) + 4 + f)%nat with (4 + (length (m' :: h) + f))%nat at 1 by lia.
    rewrite read_message by auto.
    unfold history_sep at 1. rewrite <- !app_assoc.
    cbn [chars list_ascii_of_string app JSON.skip_ws]. eval_tests.
    rewrite IH by (auto using line_break_ws; congruence).
    reflexivity.
Qed.

Lemma read_messages_nows (h : list Message) (f : nat) (rest : list ascii) :
  h <> [] ->
  JSON.parse_elements (length h + 4 + f)
    (join history_sep (map message_text h) ++ JSON.line_break 0 ++ "]"%char :: rest)
  = Some (map message_json h, rest).
Proof. intros Hne. exact (read_messages h Hne f [] rest eq_refl). Qed.

Lemma messages_head (h : list Message) (tl : list ascii) :
  h <> [] ->
  exists y, join history_sep (map message_text h) ++ tl = "{"%char :: y.
Proof.
  destruct h as [|m [|m' h]]; [congruence| |]; intros _.
  - cbn [map join]. rewrite message_text_eq. eauto.
  - change (join history_sep (map message_text (m :: m' :: h)))
      with (message_text m ++ history_sep ++ join history_sep (map message_text (m' :: h))).
    rewrite <- app_assoc, message_text_eq. eauto.
Qed.

Lemma messages_length (h : list Message) :
  (length h <= length (join history_sep (map message_text h)))%nat.
Proof.
  induction h as [|m [|m' h] IH]; [cbn; lia| |].
  - cbn [map join]. rewrite <- (app_nil_r (message_text m)), message_text_eq. cbn [length]. lia.
  - change (join history_sep (map message_text (m :: m' :: h)))
      with (message_text m ++ history_sep ++ join history_sep (map message_text (m' :: h))).
    rewrite message_text_eq. cbn [length] in IH.
    repeat (rewrite ?length_app; cbn [length]). lia.
Qed.

Lemma history_text_eq (m : Message) (h : list Message) :
  JSON.serialize 0 (history_json (m :: h))
  = "["%char :: JSON.line_break 2
      ++ join history_sep (map message_text (m :: h)) ++ JSON.line_break 0 ++ ["]"%char].
Proof.
  unfold history_json. cbn [map JSON.serialize]. rewrite map_map.
  cbn [chars list_ascii_of_string app]. rewrite <- ?app_assoc. reflexivity.
Qed.

(** [JSON.parse] reads back what [JSON.stringify] writes for a history. *)
Lemma parse_stringify_history (h : list Message) :
  JSON.parse (JSON.stringify (history_json h)) = Some (history_json h).
Proof.
  unfold JSON.parse, JSON.stringify. rewrite chars_str.
  destruct h as [|m h]; [reflexivity|].
  rewrite history_text_eq.
  set (msgs := m :: h).
  assert (Hne : msgs <> []) by (subst msgs; congruence).
  destruct (messages_head msgs (JSON.line_break 0 ++ ["]"%char]) Hne) as (y & Hy).
  pose proof (messages_length msgs) as Hlen.
  set (body := join history_sep (map message_text msgs)) in *.
  assert (Hfuel : exists f, (2 * length ("["%char :: JSON.line_break 2 ++ body
                               ++ JSON.line_break 0 ++ ["]"%char]) + 2
                            = S (length msgs + 4 + f))%nat).
  { exists (2 * length body + 9 - length msgs)%nat.
    cbn [length]. rewrite !length_app.
    cbn [length JSON.line_break spaces repeat]. lia. }
  destruct Hfuel as (f & ->).
  cbn [JSON.parse_value JSON.skip_ws]. eval_tests.
  rewrite Hy. rewrite skip_line_break by reflexivity. eval_tests.
  rewrite <- Hy. subst body.
  rewrite read_messages_nows by assumption.
  reflexivity.
Qed.

Lemma decode_message_json (m : Message) : decode_message (message_json m) = Some m.
Proof. destruct m as [[] c]; reflexivity. Qed.

Lemma decode_history_json (h : list Message) : decode_history (history_json h) = Some h.
Proof.
  unfold decode_history, history_json.
  induction h as [|m h IH]; [reflexivity|].
  cbn [map decode_list]. now rewrite decode_message_json, IH.
Qed.

(** ** Removing the code fences *)












(** ** The methods of the agent *)

Section AgentFacts.
Context {Ext : Type}.
Local Abbreviation State := (@State Ext).
Local Abbreviation World := (@World Ext).

Variable complete : list Message -> Ext -> Completion * Ext.
Variable runFunction : list string -> string -> list json -> World -> Settled * World.

(** The agent's own fields are out of reach of the tools: running one
    changes the world only. *)
Lemma executeTool_runs (nm : string) (arguments : list json) (st : State) :
  exists r w, executeTool runFunction nm arguments st = (Ok r, set_world w st).
Proof.
  unfold executeTool, bind, try_catch, call_function.
  destruct (List.find _ (tools st)) as [t|].
  - destruct (runFunction _ _ _ _) as [[v|e] w]; eauto.
  - exists {| success := false; result := VJson JNull; error := Some (not_found nm) |}, (world st).
    destruct st; reflexivity.
Qed.

Lemma run_actions_runs (acts : list Action) :
  forall (acc : list (string * ToolResult)) (st : State),
  exists rs w, run_actions runFunction acts acc st = (Ok rs, set_world w st).
Proof.
  induction acts as [|a acts IH]; intros acc st; cbn [run_actions].
  - exists acc, (world st). destruct st; reflexivity.
  - unfold bind.
    destruct (executeTool_runs (tool a) (default [] (args a)) st) as (r & w & ->).
    destruct (IH (JsObject.assign (tool a) r acc) (set_world w st)) as (rs & w' & ->).
    exists rs, w'. destruct st; reflexivity.
Qed.

Lemma processUserInput_phases (input : string) (st : State) :
  processUserInput complete runFunction input st
  = bind (decide_turn complete runFunction input) conclude_turn st.
Proof.
  unfold processUserInput, decide_turn, conclude_turn, bind, push_history.
  repeat first
    [ reflexivity
    | match goal with
      | |- context [generateResponse ?c ?i ?t ?s] =>
          destruct (generateResponse c i t s) as [[?|?|?|] ?]
      | |- context [as_decision ?j ?s] =>
          destruct (as_decision j s) as [[?|?|?|] ?]
      | |- context [run_actions ?f ?l ?a ?s] =>
          destruct (run_actions f l a s) as [[?|?|?|] ?]
      | |- context [match actions ?d with _ => _ end] => destruct (actions d)
      end ].
Qed.

Lemma messages_for_eq (st : State) (input : string)
    (toolResults : option (list (string * ToolResult))) :
  messages_for st input toolResults
  = {| role := system; content := getSystemPrompt (tools st) |}
    :: history st
    ++ {| role := user; content := input |}
    :: match toolResults with Some rs => [results_turn rs] | None => [] end.
Proof.
  unfold messages_for. cbn [app]. f_equal. f_equal.
  induction (history st) as [|[r c] h IH]; cbn [map]; [reflexivity|]. now rewrite IH.
Qed.

Lemma generateResponse_eq (input : string)
    (toolResults : option (list (string * ToolResult))) (st : State) :
  generateResponse complete input toolResults st
  = (Ok (read_completion
           (fst (complete (messages_for st input toolResults) (ext (world st))))),
     {| history := history st; tools := tools st;
        world := {| files := files (world st);
                    ext := snd (complete (messages_for st input toolResults)
                                         (ext (world st))) |};
        sent := sent st ++ [messages_for st input toolResults] |}).
Proof.
  unfold generateResponse, try_catch, bind, create_completion.
  destruct (complete _ _) as [[e|[|first rest]] x]; cbn [fst snd]; try reflexivity.
  unfold first_content, ret, JSON_parse, read_completion.
  destruct (JSON.parse _); reflexivity.
Qed.

Lemma second_prompt (st st' : State) (input : string)
    (rs : list (string * ToolResult)) :
  history st' = history st -> tools st' = tools st ->
  messages_for st' input (Some rs) = messages_for st input None ++ [results_turn rs].
Proof.
  intros Hh Ht. rewrite !messages_for_eq, Hh, Ht. cbn [app].
  now rewrite <- app_assoc.
Qed.

(** What [decide_turn] leaves behind: the user turn is appended, the tools
    are untouched, one or two prompts were sent, and the decision is the
    reading of the last completion received. *)
Lemma decide_turn_state (input : string) (st : State) :
  exists o st1,
    decide_turn complete runFunction input st = (o, st1)
    /\ history st1 = history st ++ [{| role := user; content := input |}]
    /\ tools st1 = tools st
    /\ (let p1 := messages_for
                    (set_history (history st ++ [{| role := user; content := input |}]) st)
                    input None in
        sent st1 = sent st ++ [p1]
        \/ exists rs, sent st1 = sent st ++ [p1; p1 ++ [results_turn rs]])
    /\ (exists msgs e,
          o = match decode_decision (read_completion (fst (complete msgs e))) with
              | Some d => Ok d
              | None => IllTyped
              end).
Proof.
  unfold decide_turn, bind, push_history. rewrite generateResponse_eq.
  set (st0 := set_history (history st ++ [{| role := user; content := input |}]) st).
  set (p1 := messages_for st0 input None).
  unfold as_decision at 1.
  destruct (decode_decision _) as [d|] eqn:Hd1.
  2:{ do 2 eexists. split; [reflexivity|]. subst st0. cbn [history tools sent set_history].
      repeat split; auto. exists p1, (ext (world st)).
      subst p1. cbn [world set_history] in Hd1. now rewrite Hd1. }
  destruct (actions d) as [|a acts].
  { unfold ret. do 2 eexists. split; [reflexivity|]. subst st0.
    cbn [history tools sent set_history].
    repeat split; auto. exists p1, (ext (world st)).
    subst p1. cbn [world set_history] in Hd1. now rewrite Hd1. }
  match goal with |- context [run_actions runFunction ?l ?acc ?s] =>
    destruct (run_actions_runs l acc s) as (rs & w & ->) end.
  rewrite generateResponse_eq.
  rewrite (second_prompt st0) by reflexivity. fold p1.
  unfold as_decision. clear Hd1.
  match goal with
  | |- context [decode_decision ?x] => destruct (decode_decision x) as [d2|] eqn:Hd2
  end;
    (do 2 eexists; split; [reflexivity|];
     cbn [history tools sent set_world]; subst st0; cbn [history tools sent set_history];
     repeat split; auto;
     [ right; exists rs; now rewrite <- app_assoc
     | match type of Hd2 with
       | decode_decision (read_completion (fst (complete ?m ?e))) = _ =>
           exists m, e; now rewrite Hd2
       end ]).
Qed.

(** *** Saving and loading the history *)

Lemma saveHistory_eq (st : State) :
  saveHistory st
  = (Ok tt,
     set_world
       (set_files (<[historyFile := JSON.stringify (history_json (history st))]>
                     (files (world st))) (world st)) st).
Proof. reflexivity. Qed.

Lemma stored_after_write (w : World) (h : list Message) :
  stored_turns (set_files (<[historyFile := JSON.stringify (history_json h)]> (files w)) w)
  = Some h.
Proof.
  unfold stored_turns. cbn [files set_files].
  rewrite lookup_insert_eq, parse_stringify_history. apply decode_history_json.
Qed.

Lemma loadHistory_stored (st : State) (h : list Message) :
  stored_turns (world st) = Some h ->
  loadHistory st = (Ok tt, set_history h st).
Proof.
  unfold stored_turns, loadHistory, try_catch, bind, readFileSync, JSON_parse, as_history.
  destruct (files (world st) !! historyFile) as [data|]; [|congruence].
  destruct (JSON.parse data) as [j|]; unfold ret, throw; [|congruence].
  now intros ->.
Qed.

(** *** The end of a turn *)

Lemma conclude_turn_reply (d : AgentDecision) (st : State) :
  newTools d = [] -> conclude_turn d st = (Ok (response d), replied d st).
Proof. intros Hn. unfold conclude_turn. rewrite Hn. reflexivity. Qed.

Lemma updateTools_eq (new_tools : list Tool) (st : State) :
  updateTools new_tools st
  = match files (world st) !! mainFile with
    | Some currentFile =>
        (Ok tt,
         {| history := history st; tools := tools st ++ new_tools;
            world := set_files
                       (<[mainFile := str (Regex.replace_seed_block (chars currentFile)
                                             (seed_template (tools st ++ new_tools)))]>
                          (files (world st))) (world st);
            sent := sent st |})
    | None =>
        (Throw (ErrorObject ("ENOENT: no such file or directory, open '" ^^ mainFile ^^ "'")),
         set_tools (tools st ++ new_tools) st)
    end.
Proof.
  unfold updateTools, bind, push_tools, readFileSync. cbn [world set_tools].
  destruct (files (world st) !! mainFile); reflexivity.
Qed.

Lemma conclude_turn_restart (d : AgentDecision) (st : State) :
  newTools d <> [] ->
  conclude_turn d st
  = match files (world st) !! mainFile with
    | Some currentFile => (Exit 0%Z, rewritten d currentFile st)
    | None =>
        (Throw (ErrorObject ("ENOENT: no such file or directory, open '" ^^ mainFile ^^ "'")),
         set_tools (tools st ++ newTools d) st)
    end.
Proof.
  intros Hn. unfold conclude_turn.
  destruct (newTools d) as [|t ts] eqn:Hd; [congruence|].
  unfold bind at 1 2. rewrite updateTools_eq. unfold rewritten. rewrite Hd.
  destruct (files (world st) !! mainFile); reflexivity.
Qed.


(** C6: saving the history overwrites the history file with the
    serialisation of the turns in memory, and an agent that loads the file
    right afterwards holds the same sequence of turns: same roles, same
    contents, same order. *)
Theorem history_round_trip (st : State) (h0 : list Message) (ts : list Tool)
    (l : list (list Message)) :
  let saved := snd (saveHistory st) in
  fst (saveHistory st) = Ok tt
  /\ files (world saved) !! historyFile
     = Some (JSON.stringify (history_json (history st)))
  /\ JSON.parse (JSON.stringify (history_json (history st)))
     = Some (history_json (history st))
  /\ loadHistory {| history := h0; tools := ts; world := world saved; sent := l |}
     = (Ok tt, {| history := history st; tools := ts; world := world saved; sent := l |}).
Proof.
  rewrite saveHistory_eq. cbn [fst snd world set_world].
  repeat split.
  - cbn [files set_files]. apply lookup_insert_eq.
  - apply parse_stringify_history.
  - erewrite loadHistory_stored; [reflexivity|]. cbn [world].
    apply stored_after_write.
Qed.

(** *** Committing tools *)

Lemma updateTools_appends (new_tools : list Tool) (st : State) :
  tools (snd (updateTools new_tools st)) = tools st ++ new_tools
  /\ history (snd (updateTools new_tools st)) = history st.
Proof.
  rewrite updateTools_eq. destruct (files (world st) !! mainFile); auto.
Qed.



(** *** Turns without new tools *)

Lemma conversation_app (inputs replies : list string) (i r : string) :
  length replies = length inputs ->
  conversation (inputs ++ [i]) (replies ++ [r])
  = conversation inputs replies ++ [user_turn i; assistant_turn r].
Proof.
  revert replies. induction inputs as [|a inputs IH]; intros [|b replies] Hl;
    cbn in Hl; try discriminate; [reflexivity|].
  cbn [app conversation]. now rewrite IH by lia.
Qed.






(** *** Turns that propose new tools *)


(** A response is returned only for a decision without new tools. *)
Lemma response_means_no_new_tools (input : string) (st : State) (r : string) (st' : State) :
  processUserInput complete runFunction input st = (Ok r, st') ->
  exists d st1,
    decide_turn complete runFunction input st = (Ok d, st1)
    /\ newTools d = [] /\ r = response d.
Proof.
  rewrite processUserInput_phases. unfold bind.
  destruct (decide_turn complete runFunction input st) as [[d| | |] st1] eqn:Hd;
    try discriminate.
  destruct (newTools d) as [|t ts] eqn:Hn.
  - rewrite conclude_turn_reply by assumption. intros [= <- <-]. eauto.
  - rewrite conclude_turn_restart by congruence.
    destruct (files (world st1) !! mainFile); discriminate.
Qed.

(** *** The prompt *)



(** *** Start-up *)

Lemma last_snoc_user (h : list Message) (c : string) :
  last (h ++ [user_turn c]) = Some (user_turn c).
Proof. apply last_snoc. Qed.

(** C10: when the history file ends with a user turn, start-up passes its
    content to [processUserInput], which appends it to the history once
    more: the history in memory continues with the same user turn twice in
    a row, and so does the history file as soon as the replay has written it
    (on its reply, or on the restart it triggers). *)
Theorem replay_repeats_user_turn (seed : list Tool) (w : World) (h : list Message)
    (c : string) :
  stored_turns w = Some (h ++ [user_turn c]) ->
  exists o st',
    startup complete runFunction seed w = (o, st')
    /\ match o with
       | Ok reply =>
           exists r, reply = Some r
             /\ history st' = h ++ [user_turn c; user_turn c; assistant_turn r]
             /\ stored_turns (world st')
                = Some (h ++ [user_turn c; user_turn c; assistant_turn r])
       | Exit _ =>
           history st' = h ++ [user_turn c; user_turn c]
           /\ stored_turns (world st') = Some (h ++ [user_turn c; user_turn c])
       | Throw _ | IllTyped =>
           history st' = h ++ [user_turn c; user_turn c]
       end.
Proof.
  intros Hs. unfold startup, bind.
  erewrite loadHistory_stored by exact Hs.
  cbn [initializeBasicTools set_history history tools world sent set_tools].
  unfold replay_last, set_tools, set_history. cbn [history tools world sent].
  rewrite last_snoc_user. cbn [user_turn].
  unfold bind at 1. rewrite processUserInput_phases. unfold bind.
  match goal with |- context [decide_turn complete runFunction c ?s] =>
    destruct (decide_turn_state c s) as (o1 & st1 & -> & Hh & Ht & _ & msgs & e & Ho)
  end.
  cbn [history] in Hh. rewrite <- app_assoc in Hh. cbn [app] in Hh.
  fold (user_turn c) in Hh.
  destruct o1 as [d|err|z|].
  2:{ destruct (decode_decision _); discriminate. }
  2:{ destruct (decode_decision _); discriminate. }
  2:{ exists IllTyped, st1. auto. }
  destruct (newTools d) as [|t ts] eqn:Hn.
  - rewrite conclude_turn_reply by assumption. unfold ret.
    exists (Ok (Some (response d))), (replied d st1).
    split; [reflexivity|]. exists (response d). split; [reflexivity|].
    unfold replied. cbn [history world]. rewrite stored_after_write, Hh, <- app_assoc.
    auto.
  - rewrite conclude_turn_restart by congruence.
    destruct (files (world st1) !! mainFile) as [src|].
    + exists (Exit 0%Z), (rewritten d src st1).
      split; [reflexivity|]. unfold rewritten. cbn [history world].
      rewrite Hh. split; [reflexivity|].
      unfold stored_turns. cbn [files set_files].
      rewrite lookup_insert_eq, parse_stringify_history. apply decode_history_json.
    + eexists (Throw _), _. split; [reflexivity|].
      cbn [history set_tools]. now rewrite Hh.
Qed.

(** *** Running a tool *)

Lemma executeTool_cases (nm : string) (arguments : list json) (st : State) :
  exists r w,
    executeTool runFunction nm arguments st = (Ok r, set_world w st)
    /\ match List.find (fun t => String.eqb (name t) nm) (tools st) with
       | None =>
           r = {| success := false; result := VJson JNull; error := Some (not_found nm) |}
       | Some t =>
           exists settled,
             runFunction (parameter_names (length arguments))
                         (function_body (implementation t)) arguments (world st)
             = (settled, w)
             /\ r = match settled with
                    | Returned v => {| success := true; result := v; error := None |}
                    | Rejected e =>
                        {| success := false; result := VJson JNull;
                           error := Some (error_text e) |}
                    end
       end.
Proof.
  unfold executeTool, bind, try_catch, call_function.
  destruct (List.find _ (tools st)) as [t|].
  - destruct (runFunction _ _ _ _) as [[v|e] w] eqn:Hrun;
      eexists _, w; (split; [reflexivity|]); eexists; split; eauto.
  - eexists _, (world st). split; [|reflexivity]. destruct st; reflexivity.
Qed.



(** C9, as the code has it: the error field is present exactly when
    [success] is false; a failed call has [result = null]; a successful
    call has no error and carries as result whatever the implementation
    returned, which may itself be [null] or [undefined]. *)
Theorem result_and_error_fields (nm : string) (arguments : list json) (st : State) :
  exists r w,
    executeTool runFunction nm arguments st = (Ok r, set_world w st)
    /\ (is_Some (error r) <-> success r = false)
    /\ (success r = false -> result r = VJson JNull)
    /\ (success r = true ->
        error r = None
        /\ exists t,
             List.find (fun t => String.eqb (name t) nm) (tools st) = Some t
             /\ runFunction (parameter_names (length arguments))
                            (function_body (implementation t)) arguments (world st)
                = (Returned (result r), w)).
Proof.
  destruct (executeTool_cases nm arguments st) as (r & w & Hrun & Hr).
  exists r, w. split; [exact Hrun|].
  destruct (List.find _ (tools st)) as [t|].
  - destruct Hr as ([v|e] & Hs & ->); cbn [success result error].
    + split; [split; [intros [x Hx]|]; discriminate|].
      split; [discriminate|]. intros _. split; [reflexivity|]. eauto.
    + split; [split; eauto|]. split; [reflexivity|discriminate].
  - subst r. cbn [success result error].
    split; [split; eauto|]. split; [reflexivity|discriminate].
Qed.

(** *** Reading a completion *)




End AgentFacts.

(** * The claims at concrete inputs *)


(** C9 fails as stated: the tool [lookup] returns [null]; the call succeeds
    and its result field holds no value. *)
Lemma null_result_on_success :
  executeTool Demo.engine "lookup" [] Demo.start
  = (Ok {| success := true; result := VJson JNull; error := None |}, Demo.start)
  /\ ~ (carries_value (VJson JNull) <-> true = true).
Proof.
  split; [vm_compute; reflexivity|].
  intros [_ H]. destruct (H eq_refl) as [_ Hn]. now apply Hn.
Qed.


(** C3 on an input that breaks it: with an empty prior history and the
    input [hello], [processUserInput] sends one prompt; it holds the system
    turn and then the input as two user turns, where the claim has the prior
    history (here empty) followed by the input as exactly one user turn. *)
Lemma input_is_sent_twice :
  sent (snd (processUserInput Demo.scripted Demo.engine "hello"
               (Demo.fresh basic_tools (Demo.blank [Demo.plain_reply "hi there"]))))
  = [[system_turn (getSystemPrompt basic_tools); user_turn "hello"; user_turn "hello"]]
  /\ [system_turn (getSystemPrompt basic_tools); user_turn "hello"; user_turn "hello"]
     <> single_input_prompt basic_tools [] "hello" None.
Proof. split; [vm_compute; reflexivity|discriminate]. Qed.


(** C5 on the input that breaks it: the source holds the registry
    [listFiles] in its seed block and the tool [toUSD], which contains
    [$$], is committed.  In memory the tool is appended as it is; in the
    rewritten source each [$$] has become [$], so the seed block is not the
    serialisation of the registry. *)
Lemma dollar_pairs_collapse_in_seed :
  let st := Demo.fresh [Demo.listFiles] (Demo.with_source []) in
  let st' := snd (updateTools [Demo.toUSD] st) in
  files (world st) !! mainFile
  = Some (source_with_seed Demo.before_seed Demo.after_seed [Demo.listFiles])
  /\ fst (updateTools [Demo.toUSD] st) = Ok tt
  /\ tools st' = [Demo.listFiles; Demo.toUSD]
  /\ files (world st') !! mainFile
     = Some (source_with_seed Demo.before_seed Demo.after_seed
               [Demo.listFiles; Demo.toUSD_written])
  /\ files (world st') !! mainFile
     <> Some (source_with_seed Demo.before_seed Demo.after_seed
                [Demo.listFiles; Demo.toUSD]).
Proof.
  cbv zeta. repeat split; try (vm_compute; reflexivity).
  vm_compute. discriminate.
Qed.

(** ** The theorems at concrete inputs *)



Lemma replay_repeats_user_turn_witness :
  exists o st',
    startup Demo.scripted Demo.engine basic_tools
      (Demo.interrupted [Demo.plain_reply "done"])
    = (o, st')
    /\ firstn 2 (history st') = [user_turn "add a tool"; user_turn "add a tool"].
Proof.
  destruct (replay_repeats_user_turn Demo.scripted Demo.engine basic_tools
              (Demo.interrupted [Demo.plain_reply "done"]) [] "add a tool")
    as (o & st' & Hrun & Ho).
  - vm_compute. reflexivity.
  - exists o, st'. split; [exact Hrun|].
    destruct o as [reply|e|z|].
    + destruct Ho as (r & _ & -> & _). reflexivity.
    + rewrite Ho. reflexivity.
    + destruct Ho as [-> _]. reflexivity.
    + rewrite Ho. reflexivity.
Defined.


(** * Further properties of the code *)

(** ** Objects keyed by tool name *)

Section ObjectFacts.
Context {V : Type}.
Implicit Types (o : list (string * V)) (k : string) (v : V).


Lemma has_get k o : JsObject.has k o = true <-> is_Some (JsObject.get k o).
Proof.
  induction o as [|[k' v'] o IH]; cbn [JsObject.has JsObject.get].
  - split; [discriminate|intros [x Hx]; discriminate].
  - destruct (String.eqb k k'); [|exact IH]. split; eauto.
Qed.





Lemma get_replace_same k v o :
  JsObject.has k o = true -> JsObject.get k (JsObject.replace k v o) = Some v.
Proof.
  induction o as [|[k' v'] o IH]; cbn [JsObject.has JsObject.replace]; [discriminate|].
  destruct (String.eqb k k') eqn:He; cbn [JsObject.get]; rewrite He; auto.
Qed.

Lemma get_insert_index_same n k v o :
  JsObject.has k o = false -> JsObject.get k (JsObject.insert_index n k v o) = Some v.
Proof.
  induction o as [|[k' v'] o IH]; cbn [JsObject.has JsObject.insert_index JsObject.get].
  - now rewrite String.eqb_refl.
  - destruct (String.eqb k k') eqn:He; [discriminate|]. intros Hhas.
    destruct (JsObject.array_index k') as [n'|];
      [destruct (n' <? n)%N|]; cbn [JsObject.get]; rewrite ?He, ?String.eqb_refl; auto.
Qed.

Lemma get_append_same k v o :
  JsObject.has k o = false -> JsObject.get k (o ++ [(k, v)]) = Some v.
Proof.
  induction o as [|[k' v'] o IH]; cbn [JsObject.has app JsObject.get].
  - now rewrite String.eqb_refl.
  - destruct (String.eqb k k'); [discriminate|auto].
Qed.

Lemma get_define_same k v o : JsObject.get k (JsObject.define k v o) = Some v.
Proof.
  unfold JsObject.define. destruct (JsObject.has k o) eqn:Hhas.
  - now apply get_replace_same.
  - destruct (JsObject.array_index k);
      [now apply get_insert_index_same|now apply get_append_same].
Qed.




End ObjectFacts.

(** ** More on the methods of the agent *)

Section MoreAgentFacts.
Context {Ext : Type}.
Local Abbreviation State := (@State Ext).
Local Abbreviation World := (@World Ext).

Variable complete : list Message -> Ext -> Completion * Ext.
Variable runFunction : list string -> string -> list json -> World -> Settled * World.

(** *** Loading the history *)

(** X1: [loadHistory] never raises.  With no history file, or with one that
    [JSON.parse] rejects, it leaves the agent with an empty history,
    whatever the history held before; the files are not touched. *)
Theorem loadHistory_recovers (st : State) :
  files (world st) !! historyFile = None
  \/ (exists data, files (world st) !! historyFile = Some data /\ JSON.parse data = None) ->
  loadHistory st = (Ok tt, set_history [] st)
  /\ world (snd (loadHistory st)) = world st.
Proof.
  unfold loadHistory, try_catch, bind, readFileSync, JSON_parse.
  intros [Hnone|(data & Hsome & Hbad)].
  - rewrite Hnone. auto.
  - rewrite Hsome. unfold throw. rewrite Hbad. auto.
Qed.

(** *** Looking a tool up *)

Lemma find_app_first {A : Type} (f : A -> bool) (l l' : list A) (x : A) :
  List.find f l = Some x -> List.find f (l ++ l') = Some x.
Proof.
  induction l as [|a l IH]; cbn [List.find app]; [discriminate|].
  destruct (f a); auto.
Qed.

(** X2: the first tool registered under a name is the one that runs.  Once a
    name is in the registry, tools appended later under the same name change
    nothing in what [executeTool] does for that name. *)
Theorem first_registration_wins (nm : string) (arguments : list json) (st : State)
    (t : Tool) (later : list Tool) :
  List.find (fun t => String.eqb (name t) nm) (tools st) = Some t ->
  fst (executeTool runFunction nm arguments (set_tools (tools st ++ later) st))
  = fst (executeTool runFunction nm arguments st)
  /\ world (snd (executeTool runFunction nm arguments (set_tools (tools st ++ later) st)))
     = world (snd (executeTool runFunction nm arguments st)).
Proof.
  intros Hfind. unfold executeTool, bind, try_catch, call_function.
  cbn [tools set_tools world]. rewrite (find_app_first _ _ later _ Hfind), Hfind.
  destruct (runFunction _ _ _ _) as [[v|e] w]; auto.
Qed.

(** *** Committing tools *)

(** X5: when the main file holds no text of the form [this.tools = [ ... ];],
    [updateTools] raises nothing and writes the file back unchanged, while
    the registry in memory has the new tools appended: the commit is lost
    on disk without a sign. *)
Theorem updateTools_without_seed_block (new_tools : list Tool) (st : State)
    (currentFile : string) :
  files (world st) !! mainFile = Some currentFile ->
  Regex.seed_block (chars currentFile) = None ->
  fst (updateTools new_tools st) = Ok tt
  /\ files (world (snd (updateTools new_tools st))) !! mainFile = Some currentFile
  /\ (forall path, path <> mainFile ->
        files (world (snd (updateTools new_tools st))) !! path = files (world st) !! path)
  /\ tools (snd (updateTools new_tools st)) = tools st ++ new_tools.
Proof.
  intros Hfile Hnone. rewrite updateTools_eq, Hfile.
  cbn [fst snd world files set_files tools].
  unfold Regex.replace_seed_block. rewrite Hnone, str_chars.
  repeat split.
  - apply lookup_insert_eq.
  - intros path Hne. now apply lookup_insert_ne.
Qed.

(** X6: when the main file cannot be read, a turn whose decision proposes
    new tools raises the error of the read.  The tools are already appended
    in memory and the user turn is in the history in memory, but nothing is
    written: the world is as the decision left it, and the process does not
    exit. *)
Theorem new_tools_without_main_file (input : string) (st : State) (d : AgentDecision)
    (st1 : State) :
  decide_turn complete runFunction input st = (Ok d, st1) ->
  newTools d <> [] ->
  files (world st1) !! mainFile = None ->
  exists e st',
    processUserInput complete runFunction input st = (Throw e, st')
    /\ world st' = world st1
    /\ history st' = history st ++ [user_turn input]
    /\ tools st' = tools st ++ newTools d.
Proof.
  intros Hd Hn Hnone.
  destruct (decide_turn_state complete runFunction input st)
    as (o1 & st1' & Hd' & Hh & Ht & _).
  rewrite Hd in Hd'. injection Hd' as <- <-.
  rewrite processUserInput_phases. unfold bind.
  rewrite Hd, conclude_turn_restart, Hnone by assumption.
  eexists _, _. split; [reflexivity|].
  cbn [world history tools set_tools]. rewrite Hh, Ht. auto.
Qed.

(** *** Start-up *)

Lemma no_replay (st : State) :
  (forall c, last (history st) <> Some (user_turn c)) ->
  replay_last complete runFunction st = (Ok None, st).
Proof.
  intros Hlast. unfold replay_last.
  destruct (last (history st)) as [[[] c]|]; try reflexivity.
  now destruct (Hlast c).
Qed.

(** X8: start-up calls the provider only for a pending user turn.  When the
    stored history is empty (no file, or a file that is not JSON) or ends
    with a turn that is not from the user, the process starts with the
    stored history and the seed registry, sends no prompt, and leaves the
    files alone. *)
Theorem startup_without_pending_turn (seed : list Tool) (w : World) (h : list Message) :
  stored_turns w = Some h ->
  (forall c, last h <> Some (user_turn c)) ->
  startup complete runFunction seed w
  = (Ok None, {| history := h; tools := seed; world := w; sent := [] |}).
Proof.
  intros Hs Hlast. unfold startup, bind.
  erewrite loadHistory_stored by exact Hs.
  cbn [initializeBasicTools set_history set_tools history tools world sent].
  now rewrite no_replay.
Qed.

(** X7: the history survives a restart, the registry in memory does not.
    [restart] ends the process with status 0, and the process started next
    on the files it leaves holds the same history, with the seed of its
    source as registry (here for a history that does not end with a user
    turn, so that nothing is replayed). *)
Theorem history_survives_restart (seed : list Tool) (st : State) :
  (forall c, last (history st) <> Some (user_turn c)) ->
  fst (restart st) = Exit 0%Z
  /\ startup complete runFunction seed (world (snd (restart st)))
     = (Ok None, {| history := history st; tools := seed;
                    world := world (snd (restart st)); sent := [] |}).
Proof.
  intros Hlast. unfold restart, bind. rewrite saveHistory_eq. cbn [fst snd world set_world].
  split; [reflexivity|]. unfold startup, bind.
  erewrite loadHistory_stored by apply stored_after_write.
  cbn [initializeBasicTools set_history set_tools history tools world sent].
  now rewrite no_replay.
Qed.

(** *** The end of a turn *)

(** X9: whenever [processUserInput] returns, the value returned is the
    response of a decision without new tools, the history has grown by
    exactly the user turn and the assistant turn with that response, the
    history file holds the whole history, and the registry is unchanged. *)
Theorem returned_turn (input : string) (st : State) (r : string) (st' : State) :
  processUserInput complete runFunction input st = (Ok r, st') ->
  history st' = history st ++ [user_turn input; assistant_turn r]
  /\ stored_turns (world st') = Some (history st')
  /\ tools st' = tools st
  /\ exists d st1,
       decide_turn complete runFunction input st = (Ok d, st1)
       /\ newTools d = [] /\ response d = r.
Proof.
  rewrite processUserInput_phases. unfold bind.
  destruct (decide_turn_state complete runFunction input st)
    as (o1 & st1 & Hd & Hh & Ht & _).
  rewrite Hd. destruct o1 as [d|e|z|]; try discriminate.
  destruct (newTools d) as [|t ts] eqn:Hn.
  - rewrite conclude_turn_reply by assumption. intros [= <- <-].
    unfold replied. cbn [history tools world].
    rewrite stored_after_write, Hh, Ht, <- app_assoc. cbn [app].
    repeat split; eauto.
  - rewrite conclude_turn_restart by congruence.
    destruct (files (world st1) !! mainFile); discriminate.
Qed.

(** X13: a turn only appends.  However [processUserInput] ends (response,
    exception, restart), the history it leaves is the former history
    followed by the user turn and at most one assistant turn, and the
    registry it leaves is the former registry followed by the tools
    committed (none, or those of the decision). *)
Theorem turn_only_appends (input : string) (st : State) :
  exists o st',
    processUserInput complete runFunction input st = (o, st')
    /\ (history st' = history st ++ [user_turn input]
        \/ exists r, o = Ok r
             /\ history st' = history st ++ [user_turn input; assistant_turn r])
    /\ exists committed, tools st' = tools st ++ committed.
Proof.
  rewrite processUserInput_phases. unfold bind.
  destruct (decide_turn_state complete runFunction input st)
    as (o1 & st1 & Hd & Hh & Ht & _).
  rewrite Hd.
  assert (Hnil : tools st1 = tools st ++ []) by now rewrite app_nil_r.
  destruct o1 as [d|e|z|];
    try (eexists _, _; split; [reflexivity|]; split; [now left|now exists []]).
  destruct (newTools d) as [|t ts] eqn:Hn.
  - rewrite conclude_turn_reply by assumption.
    eexists _, _. split; [reflexivity|]. unfold replied. cbn [history tools].
    rewrite Hh, <- app_assoc. cbn [app].
    split; [right; eexists; split; reflexivity|now exists []].
  - rewrite conclude_turn_restart by congruence.
    destruct (files (world st1) !! mainFile);
      (eexists _, _; split; [reflexivity|]);
      unfold rewritten; cbn [history tools set_tools]; rewrite Hh, Ht, Hn;
      (split; [now left|now exists (t :: ts)]).
Qed.

(** *** When the provider gives nothing usable *)


(** X16: a decision without actions runs no tool.  When the first
    completion is read as a decision whose [actions] are empty, that
    decision is the one the turn acts on, a single prompt has been sent, and
    the files are as they were. *)
Theorem no_actions_no_tools (input : string) (st : State) (d : AgentDecision) :
  decode_decision
    (read_completion
       (fst (complete (messages_for (set_history (history st ++ [user_turn input]) st)
                                    input None)
                      (ext (world st))))) = Some d ->
  actions d = [] ->
  exists st1,
    decide_turn complete runFunction input st = (Ok d, st1)
    /\ files (world st1) = files (world st)
    /\ length (sent st1) = S (length (sent st)).
Proof.
  intros Hd Ha. unfold decide_turn, bind, push_history.
  rewrite generateResponse_eq. unfold as_decision.
  cbn [world set_history] in *. unfold user_turn in Hd. rewrite Hd, Ha. unfold ret.
  eexists. split; [reflexivity|]. cbn [world files sent set_history].
  rewrite length_app. cbn [length]. split; [reflexivity|lia].
Qed.

(** *** The results of the actions *)




Lemma run_actions_app (front back : list Action) :
  forall (acc : list (string * ToolResult)) (st : State),
  run_actions runFunction (front ++ back) acc st
  = bind (run_actions runFunction front acc) (run_actions runFunction back) st.
Proof.
  induction front as [|a front IH]; intros acc st; cbn [app run_actions].
  - reflexivity.
  - destruct (executeTool_runs runFunction (tool a) (default [] (args a)) st)
      as (r & w & Hexec).
    unfold bind at 1. rewrite Hexec, IH. unfold bind. now rewrite Hexec.
Qed.

(** X12: when two actions name the same tool, the later result replaces the
    earlier one: the entry under the name of the last action is the result
    of running that action after all the others. *)
Theorem last_action_wins (front : list Action) (a : Action) (st : State) :
  tool a <> "__proto__"%string ->
  exists rs0 st0 r st1 rs,
    run_actions runFunction front [] st = (Ok rs0, st0)
    /\ executeTool runFunction (tool a) (default [] (args a)) st0 = (Ok r, st1)
    /\ run_actions runFunction (front ++ [a]) [] st = (Ok rs, st1)
    /\ JsObject.get (tool a) rs = Some r.
Proof.
  intros Hproto. rewrite run_actions_app. unfold bind at 1.
  destruct (run_actions_runs runFunction front [] st) as (rs0 & w0 & Hfront).
  rewrite Hfront. cbn [run_actions]. unfold bind, ret.
  destruct (executeTool_runs runFunction (tool a) (default [] (args a)) (set_world w0 st))
    as (r & w1 & Hexec).
  rewrite Hexec.
  eexists rs0, _, r, _, _. repeat split; eauto.
  unfold JsObject.assign.
  destruct (String.eqb_spec (tool a) "__proto__"); [congruence|].
  apply get_define_same.
Qed.

End MoreAgentFacts.

(** ** The registry as text *)








(** ** The catalogue and the parameter names *)

Lemma append_assoc (a b c : string) : ((a ^^ b) ^^ c = a ^^ b ^^ c)%string.
Proof.
  induction a as [|x a IH]; [reflexivity|].
  change (String x ((a ^^ b) ^^ c) = String x (a ^^ b ^^ c))%string. now rewrite IH.
Qed.

Lemma concat_app (sep : string) (l l' : list string) :
  l <> [] -> l' <> [] ->
  String.concat sep (l ++ l') = (String.concat sep l ^^ sep ^^ String.concat sep l')%string.
Proof.
  intros Hl Hl'. induction l as [|x [|y l] IH]; [congruence| |].
  - destruct l' as [|z l']; [congruence|]. reflexivity.
  - change (String.concat sep ((x :: y :: l) ++ l'))
      with (x ^^ sep ^^ String.concat sep ((y :: l) ++ l'))%string.
    rewrite IH by congruence.
    change (String.concat sep (x :: y :: l))
      with (x ^^ sep ^^ String.concat sep (y :: l))%string.
    now rewrite !append_assoc.
Qed.

(** X3: committed tools show up in the catalogue.  After [updateTools] the
    system prompt lists the tools that were registered, in their order, and
    then the new tools, in theirs, one [name: description] line each: a
    commit never drops or reorders a line of the catalogue. *)
Theorem catalog_after_commit {Ext : Type} (new_tools : list Tool) (st : @State Ext) :
  tools st <> [] -> new_tools <> [] ->
  getSystemPrompt (tools (snd (updateTools new_tools st)))
  = (prompt_head ^^ toolDescriptions (tools st) ^^ String newline EmptyString
     ^^ toolDescriptions new_tools ^^ prompt_tail)%string.
Proof.
  intros Hts Hnew. destruct (updateTools_appends new_tools st) as [-> _].
  unfold getSystemPrompt, toolDescriptions. rewrite map_app, concat_app.
  - now rewrite !append_assoc.
  - destruct (tools st); [congruence|discriminate].
  - destruct new_tools; [congruence|discriminate].
Qed.

Lemma code_byte (n : N) : (n < 256)%N -> code (byte n) = n.
Proof. apply N_ascii_embedding. Qed.

Lemma digits_value_decimal (fuel : nat) :
  forall (n : N) (acc : list ascii),
  (N.to_nat n < fuel)%nat ->
  JsObject.digits_value (decimal_fuel fuel n acc) 0 = JsObject.digits_value acc n.
Proof.
  induction fuel as [|fuel IH]; intros n acc Hn; [lia|].
  cbn [decimal_fuel].
  assert (Hd : (code (byte (48 + n mod 10)) - 48 = n mod 10)%N).
  { pose proof (N.mod_upper_bound n 10 ltac:(discriminate)) as Hm.
    set (m := (n mod 10)%N) in *. rewrite code_byte; lia. }
  destruct (N.ltb_spec n 10) as [Hlt|Hge].
  - cbn [JsObject.digits_value]. rewrite Hd, N.mod_small by assumption.
    f_equal.
  - rewrite IH.
    + cbn [JsObject.digits_value]. rewrite Hd. f_equal.
      pose proof (N.div_mod n 10 ltac:(lia)). lia.
    + assert (n / 10 < n)%N by (apply N.div_lt; lia). lia.
Qed.

Lemma decimal_value (n : nat) : JsObject.digits_value (decimal n) 0 = N.of_nat n.
Proof. unfold decimal. rewrite digits_value_decimal; [reflexivity|lia]. Qed.

Lemma str_inj (l l' : list ascii) : str l = str l' -> l = l'.
Proof. intros H. rewrite <- (chars_str l), <- (chars_str l'). now rewrite H. Qed.

Lemma append_inj (p a b : string) : (p ^^ a = p ^^ b)%string -> a = b.
Proof.
  induction p as [|c p IH]; [auto|].
  change (String c (p ^^ a) = String c (p ^^ b) -> a = b)%string. intros [= H]. auto.
Qed.

(** X15: every argument of a tool call gets a parameter of its own: the
    names built for [n] arguments are [n] names, the one at position [i] is
    [arg] followed by the decimal digits of [i], and no two of them are
    equal. *)
Theorem parameter_names_distinct (n : nat) :
  length (parameter_names n) = n
  /\ NoDup (parameter_names n)
  /\ forall i, (i < n)%nat ->
       parameter_names n !! i = Some ("arg" ^^ str (decimal i))%string
       /\ JsObject.digits_value (decimal i) 0 = N.of_nat i.
Proof.
  unfold parameter_names. split; [now rewrite length_map, length_seq|]. split.
  - apply NoDup_fmap_2; [|apply NoDup_seq].
    intros i j Hij. apply append_inj, str_inj in Hij.
    apply Nat2N.inj. now rewrite <- !decimal_value, Hij.
  - intros i Hi. split; [|apply decimal_value].
    rewrite list_lookup_fmap, lookup_seq_lt by assumption. reflexivity.
Qed.

(** ** The further properties at concrete inputs *)

Lemma loadHistory_recovers_witness :
  loadHistory Demo.answered = (Ok tt, set_history [] Demo.answered).
Proof.
  destruct (loadHistory_recovers Demo.answered) as [Hload _].
  - left. vm_compute. reflexivity.
  - exact Hload.
Defined.

Lemma first_registration_wins_witness :
  fst (executeTool Demo.engine "lookup" []
         (set_tools (tools Demo.start ++ [Demo.second_lookup]) Demo.start))
  = fst (executeTool Demo.engine "lookup" [] Demo.start).
Proof.
  destruct (first_registration_wins Demo.engine "lookup" [] Demo.start
              Demo.returns_null [Demo.second_lookup]) as [Hsame _].
  - vm_compute. reflexivity.
  - exact Hsame.
Defined.

Lemma catalog_after_commit_witness :
  getSystemPrompt (tools (snd (updateTools [Demo.toUSD] Demo.start)))
  = (prompt_head ^^ toolDescriptions (tools Demo.start) ^^ String newline EmptyString
     ^^ toolDescriptions [Demo.toUSD] ^^ prompt_tail)%string.
Proof.
  apply (catalog_after_commit [Demo.toUSD] Demo.start).
  - vm_compute. discriminate.
  - discriminate.
Defined.

Lemma updateTools_without_seed_block_witness :
  files (world (snd (updateTools [Demo.toUSD]
                       (Demo.fresh [Demo.listFiles] (Demo.without_seed []))))) !! mainFile
  = Some "export const agent = null;"%string.
Proof.
  destruct (updateTools_without_seed_block [Demo.toUSD]
              (Demo.fresh [Demo.listFiles] (Demo.without_seed []))
              "export const agent = null;") as (_ & Hfile & _).
  - vm_compute. reflexivity.
  - vm_compute. reflexivity.
  - exact Hfile.
Defined.

Lemma new_tools_without_main_file_witness :
  exists e st',
    processUserInput Demo.scripted Demo.engine "add a tool"
      (Demo.fresh [Demo.listFiles] (Demo.blank [Demo.proposes_toUSD]))
    = (Throw e, st')
    /\ tools st' = [Demo.listFiles; Demo.toUSD].
Proof.
  destruct (new_tools_without_main_file Demo.scripted Demo.engine "add a tool"
              (Demo.fresh [Demo.listFiles] (Demo.blank [Demo.proposes_toUSD]))
              Demo.toUSD_decision
              (snd (decide_turn Demo.scripted Demo.engine "add a tool"
                      (Demo.fresh [Demo.listFiles] (Demo.blank [Demo.proposes_toUSD])))))
    as (e & st' & Hrun & _ & _ & Htools).
  - vm_compute. reflexivity.
  - discriminate.
  - vm_compute. reflexivity.
  - exists e, st'. auto.
Defined.

Lemma history_survives_restart_witness :
  fst (startup Demo.parrot Demo.engine basic_tools (world (snd (restart Demo.answered))))
  = Ok None.
Proof.
  destruct (history_survives_restart Demo.parrot Demo.engine basic_tools Demo.answered)
    as [_ Hstart].
  - intros c. vm_compute. discriminate.
  - now rewrite Hstart.
Defined.

Lemma startup_without_pending_turn_witness :
  startup Demo.parrot Demo.engine basic_tools Demo.truncated
  = (Ok None, {| history := []; tools := basic_tools; world := Demo.truncated; sent := [] |}).
Proof.
  apply (startup_without_pending_turn Demo.parrot Demo.engine basic_tools Demo.truncated []).
  - vm_compute. reflexivity.
  - intros c. discriminate.
Defined.

Lemma returned_turn_witness :
  history (snd (processUserInput Demo.parrot Demo.engine "hello" Demo.quiet_start))
  = [user_turn "hello"; assistant_turn "I see"].
Proof.
  destruct (returned_turn Demo.parrot Demo.engine "hello" Demo.quiet_start "I see"
              (snd (processUserInput Demo.parrot Demo.engine "hello" Demo.quiet_start)))
    as [Hh _].
  - vm_compute. reflexivity.
  - exact Hh.
Defined.


Lemma last_action_wins_witness :
  exists rs st1,
    run_actions Demo.engine
      [{| tool := "ping"; args := None |}; {| tool := "ping"; args := Some [] |}]
      [] Demo.start
    = (Ok rs, st1)
    /\ is_Some (JsObject.get "ping" rs).
Proof.
  destruct (last_action_wins Demo.engine [{| tool := "ping"; args := None |}]
              {| tool := "ping"; args := Some [] |} Demo.start)
    as (rs0 & st0 & r & st1 & rs & _ & _ & Hrun & Hget).
  - discriminate.
  - exists rs, st1. split; [exact Hrun|]. cbn [tool] in Hget. rewrite Hget. eauto.
Defined.

Lemma no_actions_no_tools_witness :
  exists st1,
    decide_turn Demo.parrot Demo.engine "hello" Demo.quiet_start
    = (Ok {| actions := []; newTools := []; response := "I see" |}, st1)
    /\ files (world st1) = files (world Demo.quiet_start).
Proof.
  destruct (no_actions_no_tools Demo.parrot Demo.engine "hello" Demo.quiet_start
              {| actions := []; newTools := []; response := "I see" |})
    as (st1 & Hrun & Hfiles & _).
  - vm_compute. reflexivity.
  - reflexivity.
  - exists st1. auto.
Defined.


